(** * Letterboxd analytics: the enrichment cache-and-merge pipeline

    A shallow embedding of [src/api/src/main.py]: the metadata fetcher
    [get_movie_data] and the request handler [analyze_letterboxd]
    (cleaning of the upload, cache lookup, fetch of the unknown rows, append
    to the cache file, merge and aggregation).

    Modelling choices, all local to this file:
    - JSON documents as Python sees them after [json.loads] are values of
      [json]; the Python operations the source applies to them ([.get],
      subscripting, truthiness, [==], iteration, [int]) are written out with
      the exception each one raises.
    - Fallible code lives in the error monad [sum exn] of ExtLib;
      [try ... except Exception] is a match on the result.
    - A data frame is the list of its rows, in row order, with typed
      columns: [Name] holds texts and [Year] integers, which are the dtypes
      pandas gives the columns of a file whose titles are not all numbers
      and whose year cells are all integers.  [astype(str)] then renders a
      year in decimal.  Frames with a blank or a textual year, where pandas
      renders the years differently, are outside the model.
    - The cache file is the list of its rows; writing the frame and reading
      it back gives the same rows.  Ids are exact integers: the rounding of
      an old id above 2^53 by the float round trip of lines 92-96, and the
      exception for an id outside 64 bits, are not modelled.
    - A rating is the rational value of a double.  Comparisons of ratings
      are exact; the addition and the division of lines 145-146 are the
      operations [float_add] and [float_div] of Python, taken as parameters
      and never assumed exact. *)

From Stdlib Require Import ZArith QArith List String Ascii Bool Lia.
From Stdlib Require Import DecimalString DecimalPos DecimalZ.
From ExtLib Require Import Structures.Monad Structures.MonadExc.
From ExtLib Require Import Data.Monads.EitherMonad.
Import ListNotations.
Import MonadNotation.
Local Open Scope monad_scope.
Local Open Scope string_scope.
Local Open Scope Z_scope.

(** ** Python values and exceptions *)

(** The value [json.loads] (and [Response.json()]) returns.  An object is the
    list of the items of the resulting [dict]; [JNull] is Python's [None].
    A [JFloat] is a finite double, given as the rational it denotes. *)
#[local] Set Warnings "-register-all".
Inductive json : Type :=
| JNull
| JBool (b : bool)
| JInt (n : Z)
| JFloat (q : Q)
| JStr (s : string)
| JArr (items : list json)
| JObj (fields : list (string * json)).

(** The exceptions that occur in the modelled code, all of them subclasses of
    Python's [Exception]. *)
Inductive exn : Type :=
| ConnectError
| TimeoutException
| JSONDecodeError
| AttributeError
| KeyError
| IndexError
| TypeError
| ValueError.

Abbreviation result := (sum exn).

Module Py.

(** [d[key]] on a dict given by its items. *)
Fixpoint lookup (key : string) (fields : list (string * json)) : option json :=
  match fields with
  | [] => None
  | (k, v) :: rest => if String.eqb k key then Some v else lookup key rest
  end.

(** [bool(v)]: Python truthiness. *)
Definition truthy (v : json) : bool :=
  match v with
  | JNull => false
  | JBool b => b
  | JInt n => negb (n =? 0)
  | JFloat q => negb (Qeq_bool q 0)
  | JStr s => negb (String.eqb s "")
  | JArr items => match items with [] => false | _ => true end
  | JObj fields => match fields with [] => false | _ => true end
  end.

(** [v.get(key, default)]: only a dict has the method. *)
Definition get (v : json) (key : string) (default : json) : result json :=
  match v with
  | JObj fields =>
      match lookup key fields with
      | Some x => ret x
      | None => ret default
      end
  | _ => raise AttributeError
  end.

(** [v[0]] *)
Definition item0 (v : json) : result json :=
  match v with
  | JArr (x :: _) => ret x
  | JArr [] => raise IndexError
  | JStr (String c _) => ret (JStr (String c EmptyString))
  | JStr EmptyString => raise IndexError
  | JObj _ => raise KeyError
  | _ => raise TypeError
  end.

(** [v[key]] for a string [key]. *)
Definition getitem (v : json) (key : string) : result json :=
  match v with
  | JObj fields =>
      match lookup key fields with
      | Some x => ret x
      | None => raise KeyError
      end
  | _ => raise TypeError
  end.

(** [list(v)]: the values a [for] loop over [v] visits. *)
Definition iter (v : json) : result (list json) :=
  match v with
  | JArr items => ret items
  | JObj fields => ret (map (fun kv => JStr (fst kv)) fields)
  | JStr s => ret (map (fun c => JStr (String c EmptyString)) (list_ascii_of_string s))
  | _ => raise TypeError
  end.

(** [v == s] for a string literal [s]. *)
Definition eq_str (v : json) (s : string) : bool :=
  match v with
  | JStr s' => String.eqb s' s
  | _ => false
  end.

(** [v == n] for an integer literal [n]: numbers compare by value, and
    [True] and [False] are the integers 1 and 0. *)
Definition eq_int (v : json) (n : Z) : bool :=
  match v with
  | JBool b => (if b then 1 else 0) =? n
  | JInt m => m =? n
  | JFloat q => Qeq_bool q (inject_Z n)
  | _ => false
  end.

End Py.

(** ** The external metadata API *)

(** The two read operations of the API.  The credits URL is built from
    [movie_id] by string formatting; the request keeps the value itself. *)
Inductive request : Type :=
| SearchMovie (query : string) (primary_release_year : Z)
| MovieCredits (movie_id : json).

(** What [client.get] returns when it does not raise: a body that [.json()]
    decodes, or one on which it raises. *)
Inductive Response : Type :=
| Undecodable
| Decoded (body : json).

Definition Response_json (r : Response) : result json :=
  match r with
  | Undecodable => raise JSONDecodeError
  | Decoded body => ret body
  end.

(** The HTTP client together with the network and the remote service:
    [client.get] either raises or returns a response. *)
Definition AsyncClient : Type := request -> result Response.

(** An element of the [Directors] column: [{"name": ..., "gender": ...}]. *)
Record director : Type := { name : json; gender : string }.

(** ** Metadata fetcher *)

(** The list comprehension of [get_movie_data] (lines 42-45): the filter
    [p["job"] == "Director"] is evaluated for every crew entry, the element
    expression for the entries it keeps. *)
Fixpoint crew_directors (crew : list json) : result (list director) :=
  match crew with
  | [] => ret []
  | p :: rest =>
      job <- Py.getitem p "job" ;;
      if Py.eq_str job "Director" then
        nm <- Py.getitem p "name" ;;
        g <- Py.getitem p "gender" ;;
        ds <- crew_directors rest ;;
        ret ({| name := nm; gender := if Py.eq_int g 1 then "Female" else "Other" |} :: ds)
      else crew_directors rest
  end.

(** The body of the [try] block (lines 28-46). *)
Definition get_movie_data_try (client : AsyncClient) (name : string) (year : Z)
  : result (json * list director) :=
  search_res <- client (SearchMovie name year) ;;
  search_body <- Response_json search_res ;;
  results <- Py.get search_body "results" JNull ;;
  if negb (Py.truthy results) then ret (JNull, [])
  else
    first <- Py.item0 results ;;
    movie_id <- Py.getitem first "id" ;;
    credits_res <- client (MovieCredits movie_id) ;;
    credits_body <- Response_json credits_res ;;
    crew <- Py.get credits_body "crew" (JArr []) ;;
    ps <- Py.iter crew ;;
    directors <- crew_directors ps ;;
    ret (movie_id, directors).

(** [get_movie_data] (lines 23-49): [except Exception] turns every exception
    of the body into the result [(None, [])]. *)
Definition get_movie_data (client : AsyncClient) (name : string) (year : Z)
  : json * list director :=
  match get_movie_data_try client name year with
  | inr r => r
  | inl _ => (JNull, [])
  end.

(** [asyncio.gather] over the tasks of a batch: the results in the order of
    the tasks.  No task raises, so the call returns when all have returned. *)
Definition gather (client : AsyncClient) (tasks : list (string * Z))
  : list (json * list director) :=
  map (fun t => get_movie_data client (fst t) (snd t)) tasks.

(** ** Frames *)

(** [astype(str)] on the integer column [Year]. *)
Definition str (year : Z) : string := NilZero.string_of_int (Z.to_int year).

(** A cell of the uploaded [Rating] column as [pd.read_csv] delivers it. *)
Inductive cell : Type :=
| Blank
| Number (q : Q)
| Text (s : string).

(** A row of the uploaded file; a missing [Name] is [None]. *)
Module Upload.
Record row : Type :=
  { Name : option string; Year : Z; Rating : cell; Letterboxd_URI : string }.
End Upload.

(** A row of [df_user] after cleaning (line 56); [key] is the column added at
    line 57. *)
Module User.
Record row : Type :=
  { Name : string; Year : Z; Rating : Q; Letterboxd_URI : string }.
Definition key (r : row) : string := Name r ++ str (Year r).
End User.

(** A row of the cache file, columns [CACHE_COLS]; [TMDB_ID] is the nullable
    integer column, [Directors] the list that [json.dumps] wrote. *)
Module Cache.
Record row : Type :=
  { Name : string; Year : Z; URI : string;
    TMDB_ID : option Z; Directors : list director }.
Definition key (r : row) : string := Name r ++ str (Year r).
End Cache.

(** A row of [merged]: the columns of [df_user] and the two joined ones. *)
Module Merged.
Record row : Type :=
  { Name : string; Year : Z; Rating : Q; Letterboxd_URI : string;
    TMDB_ID : option Z; Directors : list director }.
End Merged.

(** An element of [best_rated_female_directed]. *)
Module Pick.
Record row : Type :=
  { Name : string; Year : Z; TMDB_ID : Z; Rating : Q; Letterboxd_URI : string }.
End Pick.

(** The returned document. *)
Record stats : Type :=
  { female_avg : Q;
    other_avg : Q;
    most_watched_female_director : option (json * nat) }.

Record analysis : Type :=
  { stats_of : stats; best_rated_female_directed : list Pick.row }.

(** ** Aggregation (lines 106-150) *)

(** The three lists the loop of lines 110-118 appends to. *)
Record tallies : Type :=
  { female_director_list : list json;
    female_ratings : list Q;
    other_ratings : list Q }.

Definition no_tallies : tallies :=
  {| female_director_list := []; female_ratings := []; other_ratings := [] |}.

(** The body of the inner loop, for the director [d] of a row rated
    [rating]. *)
Definition tally_director (rating : Q) (acc : tallies) (d : director) : tallies :=
  if String.eqb (gender d) "Female" then
    {| female_director_list := female_director_list acc ++ [name d];
       female_ratings := female_ratings acc ++ [rating];
       other_ratings := other_ratings acc |}
  else
    {| female_director_list := female_director_list acc;
       female_ratings := female_ratings acc;
       other_ratings := other_ratings acc ++ [rating] |}.

Definition tally_row (acc : tallies) (row : Merged.row) : tallies :=
  fold_left (tally_director (Merged.Rating row)) (Merged.Directors row) acc.

Definition tally (merged : list Merged.row) : tallies :=
  fold_left tally_row merged no_tallies.

Module Counter.

(** Lists and dicts are not hashable. *)
Definition hashable (v : json) : bool :=
  match v with
  | JArr _ | JObj _ => false
  | _ => true
  end.

Definition number (v : json) : option Q :=
  match v with
  | JBool b => Some (if b then 1%Q else 0%Q)
  | JInt n => Some (inject_Z n)
  | JFloat q => Some q
  | _ => None
  end.

(** [a == b] on hashable values. *)
Definition eqb (a b : json) : bool :=
  match a, b with
  | JNull, JNull => true
  | JStr s, JStr t => String.eqb s t
  | _, _ =>
      match number a, number b with
      | Some x, Some y => Qeq_bool x y
      | _, _ => false
      end
  end.

(** [counts[x] += 1], keys in the order of their first occurrence. *)
Fixpoint add (x : json) (counts : list (json * nat)) : list (json * nat) :=
  match counts with
  | [] => [(x, 1%nat)]
  | (k, n) :: rest => if eqb k x then (k, S n) :: rest else (k, n) :: add x rest
  end.

(** [Counter(items)] *)
Definition of_list (items : list json) : result (list (json * nat)) :=
  fold_left
    (fun acc x =>
       counts <- acc ;;
       if hashable x then ret (add x counts) else raise TypeError)
    items (ret []).

(** [counts.most_common(1)]: the first key among those of highest count. *)
Fixpoint most_common1 (counts : list (json * nat)) : option (json * nat) :=
  match counts with
  | [] => None
  | (k, n) :: rest =>
      match most_common1 rest with
      | Some (k', n') => if (n <? n')%nat then Some (k', n') else Some (k, n)
      | None => Some (k, n)
      end
  end.

End Counter.

(** Lines 120-124. *)
Definition top_director_data (female_director_list : list json)
  : result (option (json * nat)) :=
  director_counts <- Counter.of_list female_director_list ;;
  ret (Counter.most_common1 director_counts).

Definition is_female (d : director) : bool := String.eqb (gender d) "Female".

(** Lines 126-130. *)
Definition female_directed_df (merged : list Merged.row) : list Merged.row :=
  filter (fun row => existsb is_female (Merged.Directors row)) merged.

(** [Series.max()] on a column without missing values. *)
Definition Qmaxb (a b : Q) : Q := if Qle_bool a b then b else a.

Definition max_rating (first : Merged.row) (rest : list Merged.row) : Q :=
  fold_left (fun m row => Qmaxb m (Merged.Rating row)) rest (Merged.Rating first).

(** [fillna(0).astype(int)] on one value of the [TMDB_ID] column. *)
Definition fillna0 (id : option Z) : Z :=
  match id with
  | Some n => n
  | None => 0
  end.

Definition to_pick (row : Merged.row) : Pick.row :=
  {| Pick.Name := Merged.Name row;
     Pick.Year := Merged.Year row;
     Pick.TMDB_ID := fillna0 (Merged.TMDB_ID row);
     Pick.Rating := Merged.Rating row;
     Pick.Letterboxd_URI := Merged.Letterboxd_URI row |}.

(** Lines 132-141. *)
Definition top_female_picks (merged : list Merged.row) : list Pick.row :=
  match female_directed_df merged with
  | [] => []
  | first :: rest =>
      let m := max_rating first rest in
      let best_df :=
        filter (fun row => Qeq_bool (Merged.Rating row) m) (first :: rest) in
      map to_pick best_df
  end.

Section Arithmetic.

(** [x + y] and [x / y] as Python computes them on the ratings: for doubles
    the double nearest to the exact result, which need not be the exact
    result. *)
Variable float_add : Q -> Q -> Q.
Variable float_div : Q -> Q -> Q.

(** [sum(ratings)]: left to right from 0. *)
Definition sum (ratings : list Q) : Q := fold_left float_add ratings 0%Q.

(** [sum(ratings)/len(ratings) if ratings else 0] (lines 145-146). *)
Definition avg (ratings : list Q) : Q :=
  match ratings with
  | [] => 0%Q
  | _ :: _ => float_div (sum ratings) (inject_Z (Z.of_nat (List.length ratings)))
  end.

(** Lines 106-150: everything after the merge. *)
Definition aggregate (merged : list Merged.row) : result analysis :=
  let t := tally merged in
  top <- top_director_data (female_director_list t) ;;
  let picks := top_female_picks merged in
  ret {| stats_of :=
           {| female_avg := avg (female_ratings t);
              other_avg := avg (other_ratings t);
              most_watched_female_director := top |};
         best_rated_female_directed := picks |}.

End Arithmetic.

(** ** The request handler *)

(** What one call of [analyze_letterboxd] does: the fetches it issued, in
    order, the content of the cache file when it ends, and the value it
    returns or the exception that ends it. *)
Record run : Type :=
  { fetched : list (string * Z);
    cache_file : list Cache.row;
    returned : result analysis }.

Section Pipeline.

(** Python's [int] on a [str]: [None] where it raises [ValueError]. *)
Variable int_of_str : string -> option Z.

(** The number [pd.to_numeric] reads in a string, [None] where there is
    none. *)
Variable to_numeric_str : string -> option Q.

(** The addition and the division of ratings (see [sum] and [avg]). *)
Variable float_add : Q -> Q -> Q.
Variable float_div : Q -> Q -> Q.

(** [int(v)] *)
Definition py_int (v : json) : result Z :=
  match v with
  | JBool b => ret (if b then 1 else 0)
  | JInt n => ret n
  | JFloat q => ret (Z.quot (Qnum q) (Zpos (Qden q)))
  | JStr s =>
      match int_of_str s with
      | Some n => ret n
      | None => raise ValueError
      end
  | _ => raise TypeError
  end.

(** [pd.to_numeric(..., errors="coerce")] on one cell (line 55). *)
Definition to_numeric (c : cell) : option Q :=
  match c with
  | Blank => None
  | Number q => Some q
  | Text s => to_numeric_str s
  end.

(** Lines 54-57 on one row: [dropna(subset=["Name", "Rating"])]. *)
Definition clean (r : Upload.row) : option User.row :=
  match Upload.Name r, to_numeric (Upload.Rating r) with
  | Some n, Some q =>
      Some {| User.Name := n; User.Year := Upload.Year r;
              User.Rating := q;
              User.Letterboxd_URI := Upload.Letterboxd_URI r |}
  | _, _ => None
  end.

Definition load_and_clean (upload : list Upload.row) : list User.row :=
  flat_map (fun r => match clean r with Some u => [u] | None => [] end) upload.

(** [known_mask] (line 67) at one row. *)
Definition known_mask (cache_df : list Cache.row) (row : User.row) : bool :=
  existsb (String.eqb (User.key row)) (map Cache.key cache_df).

(** Line 68. *)
Definition to_fetch (cache_df : list Cache.row) (df_user : list User.row)
  : list User.row :=
  filter (fun row => negb (known_mask cache_df row)) df_user.

(** Lines 72-75. *)
Definition tasks_of (rows : list User.row) : list (string * Z) :=
  map (fun row => (User.Name row, User.Year row)) rows.

(** The dict appended at lines 81-89. *)
Definition new_row (row : User.row) (api_result : json * list director)
  : result Cache.row :=
  let '(m_id, directors) := api_result in
  tmdb_id <- (if Py.truthy m_id then n <- py_int m_id ;; ret (Some n)
              else ret None) ;;
  ret {| Cache.Name := User.Name row;
         Cache.Year := User.Year row;
         Cache.URI := User.Letterboxd_URI row;
         Cache.TMDB_ID := tmdb_id;
         Cache.Directors := directors |}.

(** The loop of lines 78-89. *)
Fixpoint new_rows (rows : list User.row) (api_results : list (json * list director))
  : result (list Cache.row) :=
  match rows with
  | [] => ret []
  | row :: rows' =>
      match api_results with
      | [] => raise IndexError
      | api_result :: api_results' =>
          r <- new_row row api_result ;;
          rs <- new_rows rows' api_results' ;;
          ret (r :: rs)
      end
  end.

(** Lines 67-97: the fetches issued, and the new content of the cache file
    (or the exception raised before it is written). *)
Definition update_cache (client : AsyncClient) (cache : list Cache.row)
    (df_user : list User.row) : list (string * Z) * result (list Cache.row) :=
  match to_fetch cache df_user with
  | [] => ([], ret cache)
  | rows =>
      let tasks := tasks_of rows in
      let api_results := gather client tasks in
      (tasks, rs <- new_rows rows api_results ;; ret (cache ++ rs)%list)
  end.

Definition join (u : User.row) (c : Cache.row) : Merged.row :=
  {| Merged.Name := User.Name u;
     Merged.Year := User.Year u;
     Merged.Rating := User.Rating u;
     Merged.Letterboxd_URI := User.Letterboxd_URI u;
     Merged.TMDB_ID := Cache.TMDB_ID c;
     Merged.Directors := Cache.Directors c |}.

Definition same_film (u : User.row) (c : Cache.row) : bool :=
  String.eqb (User.Name u) (Cache.Name c) && (User.Year u =? Cache.Year c).

(** Lines 102-104: the inner join on [Name] and [Year], in the order of the
    left frame. *)
Definition merge (df_user : list User.row) (full_cache : list Cache.row)
  : list Merged.row :=
  flat_map (fun u => map (join u) (filter (same_film u) full_cache)) df_user.

(** [analyze_letterboxd] (lines 52-150), started with [cache] in the cache
    file. *)
Definition analyze_letterboxd (client : AsyncClient) (cache : list Cache.row)
    (upload : list Upload.row) : run :=
  let df_user := load_and_clean upload in
  let '(tasks, written) := update_cache client cache df_user in
  match written with
  | inl e => {| fetched := tasks; cache_file := cache; returned := inl e |}
  | inr full_cache =>
      {| fetched := tasks;
         cache_file := full_cache;
         returned := aggregate float_add float_div (merge df_user full_cache) |}
  end.

End Pipeline.

(** ** Closed forms used in the statements below *)

(** The Female directors of a row and the remaining ones, in list order. *)
Definition women (row : Merged.row) : list director :=
  filter is_female (Merged.Directors row).

Definition others (row : Merged.row) : list director :=
  filter (fun d => negb (is_female d)) (Merged.Directors row).

(** One copy of the row's rating per director in [ds]. *)
Definition rating_per (row : Merged.row) (ds : list director) : list Q :=
  map (fun _ => Merged.Rating row) ds.

(** The row has at least one Female director (the test of lines 127-129). *)
Definition female_directed (row : Merged.row) : bool :=
  existsb is_female (Merged.Directors row).

(** [best_df] of line 135, the empty frame when line 133 skips the block. *)
Definition best_df (merged : list Merged.row) : list Merged.row :=
  match female_directed_df merged with
  | [] => []
  | first :: rest =>
      filter (fun row => Qeq_bool (Merged.Rating row) (max_rating first rest))
             (first :: rest)
  end.

(** A female-directed row of [merged] that no female-directed row of
    [merged] outrates. *)
Definition is_top_pick (merged : list Merged.row) (row : Merged.row) : Prop :=
  In row merged
  /\ female_directed row = true
  /\ forall row', In row' merged -> female_directed row' = true ->
                  (Merged.Rating row' <= Merged.Rating row)%Q.

(** The film a cache row is about. *)
Definition cache_film (c : Cache.row) : string * Z :=
  (Cache.Name c, Cache.Year c).

Definition film_eq_dec (a b : string * Z) : {a = b} + {a <> b}.
Proof. decide equality; [apply Z.eq_dec | apply string_dec]. Defined.

(** Written after the specification (4.3, steps 1 to 3), not after the
    code: the distinct (title, year) keys of the user records that no cache
    entry has, one fetch for each. *)
Definition spec_missing_keys (cache : list Cache.row) (df_user : list User.row)
  : list (string * Z) :=
  nodup film_eq_dec
    (filter (fun k => negb (existsb (fun c => if film_eq_dec k (cache_film c)
                                              then true else false) cache))
            (map (fun row => (User.Name row, User.Year row)) df_user)).

(** ** The steps of a fetch *)

(** [results] as line 34 binds it. *)
Definition search_results (client : AsyncClient) (name : string) (year : Z)
  : result json :=
  search_res <- client (SearchMovie name year) ;;
  search_body <- Response_json search_res ;;
  Py.get search_body "results" JNull.

(** [movie_id] as line 37 binds it. *)
Definition first_id (results : json) : result json :=
  first <- Py.item0 results ;;
  Py.getitem first "id".

(** [crew] as line 40 binds it. *)
Definition credits_crew (client : AsyncClient) (movie_id : json) : result json :=
  credits_res <- client (MovieCredits movie_id) ;;
  credits_body <- Response_json credits_res ;;
  Py.get credits_body "crew" (JArr []).

(** [directors] as lines 42-45 bind it. *)
Definition crew_list (crew : json) : result (list director) :=
  ps <- Py.iter crew ;;
  crew_directors ps.

(** Some step of the [try] block raises: the search (request, decoding or
    [.get]), the access to the first result's id, the credits (request,
    decoding or [.get]), or the comprehension over the crew. *)
Inductive fetch_fails (client : AsyncClient) (name : string) (year : Z) : Prop :=
| search_fails e :
    search_results client name year = inl e ->
    fetch_fails client name year
| first_id_fails results e :
    search_results client name year = inr results ->
    Py.truthy results = true ->
    first_id results = inl e ->
    fetch_fails client name year
| credits_fail results movie_id e :
    search_results client name year = inr results ->
    Py.truthy results = true ->
    first_id results = inr movie_id ->
    credits_crew client movie_id = inl e ->
    fetch_fails client name year
| crew_fails results movie_id crew e :
    search_results client name year = inr results ->
    Py.truthy results = true ->
    first_id results = inr movie_id ->
    credits_crew client movie_id = inr crew ->
    crew_list crew = inl e ->
    fetch_fails client name year.

Definition is_object (v : json) : bool :=
  match v with
  | JObj _ => true
  | _ => false
  end.

(** [results] is a list whose first item is an object with an "id". *)
Definition has_first_id (results : json) : bool :=
  match results with
  | JArr (JObj fields :: _) =>
      match Py.lookup "id" fields with
      | Some _ => true
      | None => false
      end
  | _ => false
  end.

(** A [for] loop accepts [v]. *)
Definition iterable (v : json) : bool :=
  match v with
  | JArr _ | JObj _ | JStr _ => true
  | _ => false
  end.

(** The gender written for the code [g] (line 43). *)
Definition classify (g : json) : string :=
  if Py.eq_int g 1 then "Female" else "Other".

Definition has (p : json) (key : string) : bool :=
  match Py.getitem p key with
  | inr _ => true
  | inl _ => false
  end.

Definition field (p : json) (key : string) : json :=
  match Py.getitem p key with
  | inr v => v
  | inl _ => JNull
  end.

(** The crew entry has a job, and it is "Director". *)
Definition is_director_entry (p : json) : bool :=
  match Py.getitem p "job" with
  | inr job => Py.eq_str job "Director"
  | inl _ => false
  end.

(** The crew entry is an object with a job and, when the job is "Director",
    with a name and a gender. *)
Definition crew_entry_ok (p : json) : bool :=
  has p "job" && (negb (is_director_entry p) || (has p "name" && has p "gender")).

Definition to_director (p : json) : director :=
  {| name := field p "name"; gender := classify (field p "gender") |}.

(** The entries whose job is "Director", classified, in crew order. *)
Definition kept_directors (crew : list json) : list director :=
  map to_director (filter is_director_entry crew).

(** The events on which a step of the [try] block raises, told by the
    answers of the service: a request that fails (network error, timeout), a
    body that does not decode, a document that is not an object, results
    without a first item that has an id, a crew that cannot be iterated, a
    crew entry without job or a Director entry without name or gender. *)
Inductive step_raises (client : AsyncClient) (name : string) (year : Z) : Prop :=
| raise_search_request e :
    client (SearchMovie name year) = inl e ->
    step_raises client name year
| raise_search_body :
    client (SearchMovie name year) = inr Undecodable ->
    step_raises client name year
| raise_search_document body :
    client (SearchMovie name year) = inr (Decoded body) ->
    is_object body = false ->
    step_raises client name year
| raise_first_result results :
    search_results client name year = inr results ->
    Py.truthy results = true ->
    has_first_id results = false ->
    step_raises client name year
| raise_credits_request results movie_id e :
    search_results client name year = inr results ->
    Py.truthy results = true ->
    first_id results = inr movie_id ->
    client (MovieCredits movie_id) = inl e ->
    step_raises client name year
| raise_credits_body results movie_id :
    search_results client name year = inr results ->
    Py.truthy results = true ->
    first_id results = inr movie_id ->
    client (MovieCredits movie_id) = inr Undecodable ->
    step_raises client name year
| raise_credits_document results movie_id body :
    search_results client name year = inr results ->
    Py.truthy results = true ->
    first_id results = inr movie_id ->
    client (MovieCredits movie_id) = inr (Decoded body) ->
    is_object body = false ->
    step_raises client name year
| raise_crew_iteration results movie_id crew :
    search_results client name year = inr results ->
    Py.truthy results = true ->
    first_id results = inr movie_id ->
    credits_crew client movie_id = inr crew ->
    iterable crew = false ->
    step_raises client name year
| raise_crew_entry results movie_id crew entries :
    search_results client name year = inr results ->
    Py.truthy results = true ->
    first_id results = inr movie_id ->
    credits_crew client movie_id = inr crew ->
    Py.iter crew = inr entries ->
    Exists (fun p => crew_entry_ok p = false) entries ->
    step_raises client name year.

(** Written after the specification (the invariant of CacheEntry), not
    after the code: a match was found upstream when the search answered with
    at least one result. *)
Definition spec_match_found (client : AsyncClient) (name : string) (year : Z) : bool :=
  match search_results client name year with
  | inr results => Py.truthy results
  | inl _ => false
  end.

(** ** Sample services *)

Definition one_result (id : json) : Response :=
  Decoded (JObj [("page", JInt 1); ("results", JArr [JObj [("id", id)]])]).

Definition crew_of (entries : list json) : Response :=
  Decoded (JObj [("id", JInt 550); ("cast", JArr []); ("crew", JArr entries)]).

Definition person (job nm : string) (extra : list (string * json)) : json :=
  JObj (("job", JStr job) :: ("name", JStr nm) :: extra).

(** Every search finds film 550; its credits are [entries]. *)
Definition service (entries : list json) : AsyncClient :=
  fun req =>
    match req with
    | SearchMovie _ _ => inr (one_result (JInt 550))
    | MovieCredits _ => inr (crew_of entries)
    end.

(** Every search finds film 7; the credits request times out. *)
Definition credits_down : AsyncClient :=
  fun req =>
    match req with
    | SearchMovie _ _ => inr (one_result (JInt 7))
    | MovieCredits _ => inl TimeoutException
    end.

(** No connection at all. *)
Definition offline : AsyncClient := fun _ => inl ConnectError.

Definition rated (n : string) (y : Z) (q : Q) : Upload.row :=
  {| Upload.Name := Some n; Upload.Year := y;
     Upload.Rating := Number q; Upload.Letterboxd_URI := "https://boxd.it/" ++ n |}.

(** Parsers that read plain decimal integers, for the concrete runs. *)
Definition decimal (s : string) : option Z :=
  option_map Z.of_int (NilZero.int_of_string s).

Definition decimal_rating (s : string) : option Q :=
  option_map inject_Z (decimal s).

Definition potter : director := {| name := JStr "Sally Potter"; gender := "Female" |}.

Definition orlando_crew : list json :=
  [ person "Director" "Sally Potter" [("gender", JInt 1)];
    person "Editor" "Herve Schneid" [("gender", JInt 2)];
    person "Director" "N. N." [("gender", JInt 0)];
    person "Director" "M. M." [("gender", JNull)] ].

Definition orlando_directors : list director :=
  [ potter;
    {| name := JStr "N. N."; gender := "Other" |};
    {| name := JStr "M. M."; gender := "Other" |} ].

Definition unrated : Upload.row :=
  {| Upload.Name := Some "Orlando"; Upload.Year := 1992;
     Upload.Rating := Text "n/a"; Upload.Letterboxd_URI := "https://boxd.it/Orlando" |}.

Definition orlando_analysis : analysis :=
  {| stats_of :=
       {| female_avg := 9 # 2; other_avg := 0;
          most_watched_female_director := Some (JStr "Sally Potter", 1%nat) |};
     best_rated_female_directed :=
       [ {| Pick.Name := "Orlando"; Pick.Year := 1992; Pick.TMDB_ID := 0;
            Pick.Rating := 9 # 2;
            Pick.Letterboxd_URI := "https://boxd.it/Orlando" |} ] |}.

Definition orlando_twice : list Upload.row :=
  [rated "Orlando" 1992 (9 # 2); rated "Orlando" 1992 4].

(** Orlando rated twice, with another film between the two ratings, and
    the cache file a run on it writes after the Apollo entry. *)
Definition orlando_between : list Upload.row :=
  [rated "Orlando" 1992 (9 # 2); rated "Jeanne Dielman" 1975 5;
   rated "Orlando" 1992 4].

Definition orlando_row : User.row :=
  {| User.Name := "Orlando"; User.Year := 1992; User.Rating := 9 # 2;
     User.Letterboxd_URI := "https://boxd.it/Orlando" |}.

Definition orlando_entry (id : option Z) (ds : list director) : Cache.row :=
  {| Cache.Name := "Orlando"; Cache.Year := 1992;
     Cache.URI := "https://boxd.it/Orlando";
     Cache.TMDB_ID := id; Cache.Directors := ds |}.

Definition apollo_entry : Cache.row :=
  {| Cache.Name := "Apollo 1"; Cache.Year := 1995; Cache.URI := "";
     Cache.TMDB_ID := Some 568; Cache.Directors := [] |}.

Definition orlando_between_cache : list Cache.row :=
  [ apollo_entry;
    orlando_entry (Some 550) orlando_directors;
    {| Cache.Name := "Jeanne Dielman"; Cache.Year := 1975;
       Cache.URI := "https://boxd.it/Jeanne Dielman";
       Cache.TMDB_ID := Some 550; Cache.Directors := orlando_directors |};
    orlando_entry (Some 550) orlando_directors ].

(** ** What a fetch sends *)

(** The requests one call of [get_movie_data] sends, in order: the search of
    line 29 always, the credits of line 39 when lines 34-37 raise nothing
    and [results] is truthy. *)
Definition requests_issued (client : AsyncClient) (name : string) (year : Z)
  : list request :=
  SearchMovie name year ::
  match search_results client name year with
  | inr results =>
      if Py.truthy results then
        match first_id results with
        | inr movie_id => [MovieCredits movie_id]
        | inl _ => []
        end
      else []
  | inl _ => []
  end.

(** The genders line 43 can write. *)
Definition gender_written (d : director) : Prop :=
  gender d = "Female" \/ gender d = "Other".

(** The number of items of [items] that Python finds equal to [x]. *)
Definition occurrences (x : json) (items : list json) : nat :=
  List.length (filter (Counter.eqb x) items).

(** [counts[x]], 0 for a key that is not there. *)
Fixpoint count_for (x : json) (counts : list (json * nat)) : nat :=
  match counts with
  | [] => 0%nat
  | (k, n) :: rest => if Counter.eqb k x then n else count_for x rest
  end.

(** No two keys are equal for Python. *)
Fixpoint keys_distinct (counts : list (json * nat)) : Prop :=
  match counts with
  | [] => True
  | (k, _) :: rest =>
      (forall k' n', In (k', n') rest -> Counter.eqb k k' = false)
      /\ keys_distinct rest
  end.

(** Film 550, whose director's name comes as a list of two texts. *)
Definition split_name : AsyncClient :=
  service [ JObj [("job", JStr "Director");
                  ("name", JArr [JStr "Sally"; JStr "Potter"]);
                  ("gender", JInt 1)] ].

Definition varda : director := {| name := JStr "Agnes Varda"; gender := "Female" |}.

Definition orlando_merged : Merged.row :=
  {| Merged.Name := "Orlando"; Merged.Year := 1992; Merged.Rating := 9 # 2;
     Merged.Letterboxd_URI := ""; Merged.TMDB_ID := Some 550;
     Merged.Directors := [potter] |}.

Definition vagabond_merged : Merged.row :=
  {| Merged.Name := "Vagabond"; Merged.Year := 1985; Merged.Rating := 5;
     Merged.Letterboxd_URI := ""; Merged.TMDB_ID := Some 8;
     Merged.Directors := [varda] |}.

(** Three merged rows: two by Varda, one by Potter. *)
Definition three_rows : list Merged.row :=
  [ orlando_merged;
    vagabond_merged;
    {| Merged.Name := "Le Bonheur"; Merged.Year := 1965; Merged.Rating := 4;
       Merged.Letterboxd_URI := ""; Merged.TMDB_ID := Some 9;
       Merged.Directors := [varda] |} ].

(** The entry the handler builds from the answer of [split_name]. *)
Definition split_name_entry : Cache.row :=
  orlando_entry (Some 550)
    [ {| name := JArr [JStr "Sally"; JStr "Potter"]; gender := "Female" |} ].

(** One merged row, directed by a man. *)
Definition others_only : list Merged.row :=
  [ {| Merged.Name := "Barry Lyndon"; Merged.Year := 1975; Merged.Rating := 3;
       Merged.Letterboxd_URI := ""; Merged.TMDB_ID := Some 3175;
       Merged.Directors := [ {| name := JStr "Stanley Kubrick"; gender := "Other" |} ] |} ].

Definition others_only_analysis : analysis :=
  {| stats_of := {| female_avg := 0; other_avg := 3;
                    most_watched_female_director := None |};
     best_rated_female_directed := [] |}.

(** Every key of [keys] first occurs in [seen] before any item equal to a
    later key: the keys are in the order of their first occurrence. *)
Fixpoint first_seen_order (seen keys : list json) : Prop :=
  match keys with
  | [] => True
  | k :: rest =>
      (exists pre post,
          seen = (pre ++ k :: post)%list
          /\ forall z, In z pre ->
                       Counter.eqb k z = false
                       /\ forall k2, In k2 rest -> Counter.eqb k2 z = false)
      /\ first_seen_order seen rest
  end.

(** Film 550 for the search of Orlando and its credits, no connection for
    anything else. *)
Definition flaky : AsyncClient :=
  fun req =>
    match req with
    | SearchMovie "Orlando" 1992 => service orlando_crew req
    | MovieCredits (JInt 550) => service orlando_crew req
    | _ => inl ConnectError
    end.

(** Film 550 is found; its credits are answered "not found". *)
Definition not_found : AsyncClient :=
  fun req =>
    match req with
    | SearchMovie _ _ => inr (one_result (JInt 550))
    | MovieCredits _ =>
        inr (Decoded (JObj [("success", JBool false); ("status_code", JInt 34)]))
    end.

(** Every request is answered with the error document of a bad token. *)
Definition unauthorized : AsyncClient :=
  fun _ => inr (Decoded (JObj [("success", JBool false); ("status_code", JInt 7)])).

(** The search lists a second candidate after film 550. *)
Definition two_results : AsyncClient :=
  fun req =>
    match req with
    | SearchMovie _ _ =>
        inr (Decoded (JObj [("results", JArr [JObj [("id", JInt 550)];
                                               JObj [("id", JInt 9999)]])]))
    | MovieCredits _ => inr (crew_of orlando_crew)
    end.

(** Film 550 for Orlando; for any other title an id that is a text, not a
    number. *)
Definition text_id : AsyncClient :=
  fun req =>
    match req with
    | SearchMovie "Orlando" _ => inr (one_result (JInt 550))
    | SearchMovie _ _ => inr (one_result (JStr "tt0073198"))
    | MovieCredits _ => inr (crew_of orlando_crew)
    end.

Definition apollo_11 : User.row :=
  {| User.Name := "Apollo 11"; User.Year := 995; User.Rating := 3;
     User.Letterboxd_URI := "https://boxd.it/Apollo 11" |}.

(** The exact sum of the ratings, the numerator of their arithmetic mean. *)
Definition exact_sum (ratings : list Q) : Q := fold_right Qplus 0%Q ratings.

Section Exactness.

Variable float_add : Q -> Q -> Q.

(** Every addition [sum] performs over [ratings], started from [acc], gives
    the exact result. *)
Fixpoint adds_exactly (acc : Q) (ratings : list Q) : Prop :=
  match ratings with
  | [] => True
  | x :: rest =>
      (float_add acc x == acc + x)%Q /\ adds_exactly (float_add acc x) rest
  end.

End Exactness.

Section Provenance.

Variable to_numeric_str : string -> option Q.

(** Some row of [kept] has the name [n], the year [y], a rating that reads
    as the number [q] and the URI [uri]. *)
Definition provided_by (kept : list Upload.row)
    (n : string) (y : Z) (q : Q) (uri : string) : Prop :=
  exists r', In r' kept
             /\ Upload.Name r' = Some n
             /\ Upload.Year r' = y
             /\ to_numeric to_numeric_str (Upload.Rating r') = Some q
             /\ Upload.Letterboxd_URI r' = uri.

End Provenance.

(** The row is about the film [n] of the year [y]. *)
Definition user_about (n : string) (y : Z) (u : User.row) : bool :=
  String.eqb (User.Name u) n && (User.Year u =? y).

Definition cache_about (n : string) (y : Z) (c : Cache.row) : bool :=
  String.eqb (Cache.Name c) n && (Cache.Year c =? y).

Definition merged_about (n : string) (y : Z) (row : Merged.row) : bool :=
  String.eqb (Merged.Name row) n && (Merged.Year row =? y).

(** ** The fetcher with its requests recorded *)

(** A computation that records the requests it sends: from the requests
    sent so far to the requests sent when it ends, with its outcome. *)
Definition logged (A : Type) : Type := list request -> list request * result A.

#[local] Instance Monad_logged : Monad logged :=
  {| ret := fun A (x : A) sent => (sent, inr x);
     bind := fun A B (c : logged A) (k : A -> logged B) sent =>
               match c sent with
               | (sent', inl e) => (sent', inl e)
               | (sent', inr x) => k x sent'
               end |}.

(** [await client.get(...)]: the request is sent, then answered. *)
Definition send (client : AsyncClient) (req : request) : logged Response :=
  fun sent => ((sent ++ [req])%list, client req).

(** A step that sends nothing. *)
Definition local {A : Type} (r : result A) : logged A := fun sent => (sent, r).

(** The body of the [try] block (lines 28-46) once more, step for step as
    in [get_movie_data_try], with the requests recorded. *)
Definition get_movie_data_sent (client : AsyncClient) (name : string) (year : Z)
  : logged (json * list director) :=
  search_res <- send client (SearchMovie name year) ;;
  search_body <- local (Response_json search_res) ;;
  results <- local (Py.get search_body "results" JNull) ;;
  if negb (Py.truthy results) then ret (JNull, [])
  else
    first <- local (Py.item0 results) ;;
    movie_id <- local (Py.getitem first "id") ;;
    credits_res <- send client (MovieCredits movie_id) ;;
    credits_body <- local (Response_json credits_res) ;;
    crew <- local (Py.get credits_body "crew" (JArr [])) ;;
    ps <- local (Py.iter crew) ;;
    directors <- local (crew_directors ps) ;;
    ret (movie_id, directors).

(** * Properties *)

(** ** The aggregation loop *)

Section Tally.

Lemma tally_director_fold (rating : Q) (ds : list director) :
  forall acc,
    fold_left (tally_director rating) ds acc =
    {| female_director_list :=
         female_director_list acc ++ map name (filter is_female ds);
       female_ratings :=
         female_ratings acc ++ map (fun _ => rating) (filter is_female ds);
       other_ratings :=
         other_ratings acc
           ++ map (fun _ => rating) (filter (fun d => negb (is_female d)) ds) |}%list.
Proof.
  induction ds as [|d ds IH]; intros [fdl fr ors]; simpl.
  - now rewrite !app_nil_r.
  - rewrite IH. unfold tally_director, is_female.
    destruct (String.eqb (gender d) "Female"); simpl;
      now rewrite <- ?app_assoc.
Qed.

Lemma tally_row_fields (acc : tallies) (row : Merged.row) :
  tally_row acc row =
  {| female_director_list := female_director_list acc ++ map name (women row);
     female_ratings := female_ratings acc ++ rating_per row (women row);
     other_ratings := other_ratings acc ++ rating_per row (others row) |}%list.
Proof. unfold tally_row. now rewrite tally_director_fold. Qed.

Lemma tally_fold (merged : list Merged.row) :
  forall acc,
    fold_left tally_row merged acc =
    {| female_director_list :=
         female_director_list acc
           ++ flat_map (fun row => map name (women row)) merged;
       female_ratings :=
         female_ratings acc
           ++ flat_map (fun row => rating_per row (women row)) merged;
       other_ratings :=
         other_ratings acc
           ++ flat_map (fun row => rating_per row (others row)) merged |}%list.
Proof.
  induction merged as [|row merged IH]; intros acc; simpl.
  - destruct acc; simpl. now rewrite !app_nil_r.
  - rewrite IH, tally_row_fields. simpl. now rewrite <- !app_assoc.
Qed.

Lemma tally_closed (merged : list Merged.row) :
  tally merged =
  {| female_director_list := flat_map (fun row => map name (women row)) merged;
     female_ratings := flat_map (fun row => rating_per row (women row)) merged;
     other_ratings := flat_map (fun row => rating_per row (others row)) merged |}.
Proof. unfold tally. now rewrite tally_fold. Qed.

(** C1.  The loop of lines 110-118 visits every director of every merged
    row: a director whose gender is Female adds the name to the tally list
    and the row's rating to the female bucket, a director whose gender is
    Other adds the row's rating to the other bucket.  Over the whole frame
    the three lists are, row after row, the names of the row's Female
    directors, one copy of the rating per Female director and one copy per
    other director.  A row without directors changes nothing, and a row with
    two Female co-directors adds both names and its rating twice. *)
Theorem tally_per_director :
  (forall rating acc nm,
      tally_director rating acc {| name := nm; gender := "Female" |} =
      {| female_director_list := female_director_list acc ++ [nm];
         female_ratings := female_ratings acc ++ [rating];
         other_ratings := other_ratings acc |})
  /\ (forall rating acc nm,
      tally_director rating acc {| name := nm; gender := "Other" |} =
      {| female_director_list := female_director_list acc;
         female_ratings := female_ratings acc;
         other_ratings := other_ratings acc ++ [rating] |})
  /\ (forall merged,
      female_director_list (tally merged) =
        flat_map (fun row => map name (women row)) merged
      /\ female_ratings (tally merged) =
        flat_map (fun row => rating_per row (women row)) merged
      /\ other_ratings (tally merged) =
        flat_map (fun row => rating_per row (others row)) merged)
  /\ (forall merged n y r u id,
      tally (merged ++ [ {| Merged.Name := n; Merged.Year := y;
                            Merged.Rating := r; Merged.Letterboxd_URI := u;
                            Merged.TMDB_ID := id; Merged.Directors := [] |} ])
      = tally merged)
  /\ (forall merged n y r u id nm1 nm2,
      let row :=
        {| Merged.Name := n; Merged.Year := y;
           Merged.Rating := r; Merged.Letterboxd_URI := u;
           Merged.TMDB_ID := id;
           Merged.Directors := [ {| name := nm1; gender := "Female" |};
                                 {| name := nm2; gender := "Female" |} ] |} in
      tally (merged ++ [row]) =
      {| female_director_list :=
           female_director_list (tally merged) ++ [nm1; nm2];
         female_ratings := female_ratings (tally merged) ++ [r; r];
         other_ratings := other_ratings (tally merged) |}).
Proof.
  split; [|split; [|split; [|split]]]; intros.
  - reflexivity.
  - reflexivity.
  - now rewrite tally_closed.
  - unfold tally. rewrite fold_left_app. simpl. reflexivity.
  - unfold tally. rewrite fold_left_app. simpl.
    unfold tally_row, tally_director; simpl. now rewrite <- !app_assoc.
Qed.

End Tally.

(** ** Top picks and averages *)

Section Picks.

Lemma Qmaxb_l (a b : Q) : (a <= Qmaxb a b)%Q.
Proof.
  unfold Qmaxb. destruct (Qle_bool a b) eqn:E.
  - now apply Qle_bool_iff.
  - apply Qle_refl.
Qed.

Lemma Qmaxb_r (a b : Q) : (b <= Qmaxb a b)%Q.
Proof.
  unfold Qmaxb. destruct (Qle_bool a b) eqn:E.
  - apply Qle_refl.
  - apply Qlt_le_weak, Qnot_le_lt. intros H.
    apply Qle_bool_iff in H. congruence.
Qed.

Lemma Qmaxb_either (a b : Q) : Qmaxb a b = a \/ Qmaxb a b = b.
Proof. unfold Qmaxb. destruct (Qle_bool a b); auto. Qed.

Lemma max_rating_fold (rest : list Merged.row) :
  forall m0,
    let m := fold_left (fun m row => Qmaxb m (Merged.Rating row)) rest m0 in
    (m0 <= m)%Q
    /\ (forall row, In row rest -> (Merged.Rating row <= m)%Q)
    /\ (m = m0 \/ exists row, In row rest /\ m = Merged.Rating row).
Proof.
  induction rest as [|x rest IH]; intros m0; simpl.
  - split; [apply Qle_refl|]. split; [tauto | now left].
  - destruct (IH (Qmaxb m0 (Merged.Rating x))) as (Hlo & Hall & Hwho).
    split; [|split].
    + eapply Qle_trans; [apply Qmaxb_l | exact Hlo].
    + intros row [<- | Hin]; [|now apply Hall].
      eapply Qle_trans; [apply Qmaxb_r | exact Hlo].
    + destruct Hwho as [-> | (row & Hin & ->)].
      * destruct (Qmaxb_either m0 (Merged.Rating x)) as [-> | ->];
          [now left | right; exists x; auto].
      * right. exists row. auto.
Qed.

Lemma max_rating_upper (first : Merged.row) (rest : list Merged.row) (row : Merged.row) :
  In row (first :: rest) -> (Merged.Rating row <= max_rating first rest)%Q.
Proof.
  unfold max_rating.
  destruct (max_rating_fold rest (Merged.Rating first)) as (Hlo & Hall & _).
  intros [<- | Hin]; auto.
Qed.

Lemma max_rating_attained (first : Merged.row) (rest : list Merged.row) :
  exists row, In row (first :: rest) /\ max_rating first rest = Merged.Rating row.
Proof.
  unfold max_rating.
  destruct (max_rating_fold rest (Merged.Rating first)) as (_ & _ & [-> | (row & Hin & ->)]).
  - exists first. simpl. auto.
  - exists row. simpl. auto.
Qed.

Lemma female_directed_df_In (merged : list Merged.row) (row : Merged.row) :
  In row (female_directed_df merged) <-> In row merged /\ female_directed row = true.
Proof. unfold female_directed_df, female_directed. apply filter_In. Qed.

Lemma best_df_top_pick (merged : list Merged.row) (row : Merged.row) :
  In row (best_df merged) <-> is_top_pick merged row.
Proof.
  unfold best_df, is_top_pick.
  destruct (female_directed_df merged) as [|first rest] eqn:Efd.
  - split; [contradiction|]. intros (Hin & Hf & _).
    assert (H : In row (female_directed_df merged))
      by now apply female_directed_df_In.
    now rewrite Efd in H.
  - rewrite filter_In, <- Efd, Qeq_bool_iff.
    split.
    + intros (Hin & Hmax).
      apply female_directed_df_In in Hin as Hin'. destruct Hin' as (Hm & Hf).
      repeat split; trivial.
      intros row' Hm' Hf'. rewrite Hmax.
      apply max_rating_upper. rewrite <- Efd.
      now apply female_directed_df_In.
    + intros (Hm & Hf & Hall).
      assert (Hin : In row (female_directed_df merged))
        by now apply female_directed_df_In.
      split; trivial.
      apply Qle_antisym.
      * apply max_rating_upper. now rewrite <- Efd.
      * destruct (max_rating_attained first rest) as (top & Htop & ->).
        rewrite <- Efd in Htop. apply female_directed_df_In in Htop.
        now apply Hall.
Qed.

Lemma top_female_picks_best (merged : list Merged.row) :
  top_female_picks merged = map to_pick (best_df merged).
Proof.
  unfold top_female_picks, best_df.
  now destruct (female_directed_df merged).
Qed.

End Picks.

(** ** The orchestration: which rows are fetched, what is written *)

Section Orchestration.

Variable int_of_str : string -> option Z.
Variable to_numeric_str : string -> option Q.
Variable float_add : Q -> Q -> Q.
Variable float_div : Q -> Q -> Q.

#[local] Abbreviation py_int := (py_int int_of_str).
#[local] Abbreviation new_row := (new_row int_of_str).
#[local] Abbreviation new_rows := (new_rows int_of_str).
#[local] Abbreviation update_cache := (update_cache int_of_str).
#[local] Abbreviation load_and_clean := (load_and_clean to_numeric_str).
#[local] Abbreviation aggregate := (aggregate float_add float_div).
#[local] Abbreviation analyze_letterboxd :=
  (analyze_letterboxd int_of_str to_numeric_str float_add float_div).

Lemma new_row_inv (row : User.row) (m_id : json) (ds : list director) (r : Cache.row) :
  new_row row (m_id, ds) = inr r ->
  Cache.Name r = User.Name row
  /\ Cache.Year r = User.Year row
  /\ Cache.URI r = User.Letterboxd_URI row
  /\ Cache.Directors r = ds
  /\ (if Py.truthy m_id
      then exists n, py_int m_id = inr n /\ Cache.TMDB_ID r = Some n
      else Cache.TMDB_ID r = None).
Proof.
  unfold new_row. destruct (Py.truthy m_id).
  - destruct (py_int m_id) as [e | n]; simpl; [discriminate|].
    intros [= <-]; simpl. repeat split. now exists n.
  - simpl. intros [= <-]; simpl. now repeat split.
Qed.

Lemma new_rows_films (rows : list User.row) :
  forall api_results rs,
    new_rows rows api_results = inr rs ->
    map (fun c => (Cache.Name c, Cache.Year c)) rs = tasks_of rows.
Proof.
  induction rows as [|row rows IH]; intros api_results rs; simpl.
  - now intros [= <-].
  - destruct api_results as [|[m_id ds] api_results]; [discriminate|].
    destruct (new_row row (m_id, ds)) as [e | r] eqn:Er; [discriminate|].
    destruct (new_rows rows api_results) as [e | rs'] eqn:Ers; [discriminate|].
    simpl. intros [= <-]. simpl.
    apply new_row_inv in Er as (-> & -> & _).
    f_equal. now apply IH with api_results.
Qed.

Lemma new_rows_keys (rows : list User.row) (api_results : list (json * list director))
    (rs : list Cache.row) :
  new_rows rows api_results = inr rs ->
  map Cache.key rs = map User.key rows.
Proof.
  intros H. apply new_rows_films in H.
  unfold tasks_of in H.
  transitivity (map (fun t => fst t ++ str (snd t))
                    (map (fun c => (Cache.Name c, Cache.Year c)) rs)).
  - now rewrite map_map.
  - rewrite H, map_map. reflexivity.
Qed.

(** The two branches of line 70 give the same pair. *)
Lemma update_cache_eq (client : AsyncClient) (cache : list Cache.row)
    (df_user : list User.row) :
  update_cache client cache df_user =
  (tasks_of (to_fetch cache df_user),
   match new_rows (to_fetch cache df_user)
                  (gather client (tasks_of (to_fetch cache df_user))) with
   | inl e => inl e
   | inr rs => inr (cache ++ rs)%list
   end).
Proof.
  unfold update_cache.
  destruct (to_fetch cache df_user) as [|row rows]; simpl.
  - now rewrite app_nil_r.
  - reflexivity.
Qed.

Lemma analyze_fetched (client : AsyncClient) (cache : list Cache.row)
    (upload : list Upload.row) :
  fetched (analyze_letterboxd client cache upload) =
  tasks_of (to_fetch cache (load_and_clean upload)).
Proof.
  unfold analyze_letterboxd. rewrite update_cache_eq.
  now destruct (new_rows _ _).
Qed.

Lemma analyze_cache_file (client : AsyncClient) (cache : list Cache.row)
    (upload : list Upload.row) :
  cache_file (analyze_letterboxd client cache upload) =
  match snd (update_cache client cache (load_and_clean upload)) with
  | inl _ => cache
  | inr full_cache => full_cache
  end.
Proof.
  unfold analyze_letterboxd.
  destruct (update_cache client cache (load_and_clean upload)) as [tasks [e | c]];
    reflexivity.
Qed.

Lemma known_mask_In (cache : list Cache.row) (row : User.row) :
  known_mask cache row = true <-> In (User.key row) (map Cache.key cache).
Proof.
  unfold known_mask. rewrite existsb_exists. split.
  - intros (k & Hin & Hk). apply String.eqb_eq in Hk. now subst.
  - intros Hin. exists (User.key row). split; trivial. apply String.eqb_refl.
Qed.

Lemma known_mask_app (cache rs : list Cache.row) (row : User.row) :
  known_mask (cache ++ rs) row = known_mask cache row || known_mask rs row.
Proof. unfold known_mask. now rewrite map_app, existsb_app. Qed.

Lemma to_fetch_In (cache : list Cache.row) (df_user : list User.row) (row : User.row) :
  In row (to_fetch cache df_user) <-> In row df_user /\ known_mask cache row = false.
Proof.
  unfold to_fetch. rewrite filter_In, negb_true_iff. reflexivity.
Qed.

(** After the append every row of [df_user] is known. *)
Lemma all_known_after (client : AsyncClient) (cache : list Cache.row)
    (df_user : list User.row) (cache' : list Cache.row) :
  snd (update_cache client cache df_user) = inr cache' ->
  forall row, In row df_user -> known_mask cache' row = true.
Proof.
  rewrite update_cache_eq. simpl.
  destruct (new_rows _ _) as [e | rs] eqn:Ers; [discriminate|].
  intros [= <-] row Hin.
  rewrite known_mask_app.
  destruct (known_mask cache row) eqn:Ek; trivial. simpl.
  apply known_mask_In.
  rewrite (new_rows_keys _ _ _ Ers).
  apply in_map, to_fetch_In. now split.
Qed.

Lemma to_fetch_nil (cache : list Cache.row) (df_user : list User.row) :
  (forall row, In row df_user -> known_mask cache row = true) ->
  to_fetch cache df_user = [].
Proof.
  intros H. unfold to_fetch.
  induction df_user as [|row rows IH]; simpl; trivial.
  rewrite (H row) by (simpl; auto). simpl.
  apply IH. intros r Hr. apply H. simpl; auto.
Qed.

(** With ids that are integers (or [None]) line 86 raises nothing, and the
    rows are written. *)
Lemma new_rows_total (rows : list User.row) :
  forall api_results,
    List.length api_results = List.length rows ->
    Forall (fun res => fst res = JNull \/ exists n, fst res = JInt n) api_results ->
    exists rs, new_rows rows api_results = inr rs.
Proof.
  induction rows as [|row rows IH]; intros api_results Hlen Hall; simpl.
  - now exists [].
  - destruct api_results as [|[m_id ds] api_results]; [discriminate|].
    inversion Hall as [|? ? Hid Hrest]; subst.
    destruct (IH api_results) as (rs & Hrs); [now injection Hlen | trivial |].
    rewrite Hrs. simpl in Hid.
    destruct Hid as [-> | (n & ->)]; simpl; eauto.
    destruct (n =? 0); simpl; eauto.
Qed.

Lemma update_cache_writes (client : AsyncClient) (cache : list Cache.row)
    (df_user : list User.row) :
  Forall (fun res => fst res = JNull \/ exists n, fst res = JInt n)
         (gather client (tasks_of (to_fetch cache df_user))) ->
  exists rs, snd (update_cache client cache df_user) = inr (cache ++ rs)%list.
Proof.
  intros Hids. rewrite update_cache_eq. simpl.
  destruct (new_rows_total (to_fetch cache df_user)
              (gather client (tasks_of (to_fetch cache df_user))))
    as (rs & ->); trivial.
  - unfold gather, tasks_of. now rewrite !length_map.
  - now exists rs.
Qed.

End Orchestration.

Section Enrichment.

Variable int_of_str : string -> option Z.
Variable to_numeric_str : string -> option Q.
Variable float_add : Q -> Q -> Q.
Variable float_div : Q -> Q -> Q.

#[local] Abbreviation update_cache := (update_cache int_of_str).
#[local] Abbreviation to_numeric := (to_numeric to_numeric_str).
#[local] Abbreviation clean := (clean to_numeric_str).
#[local] Abbreviation load_and_clean := (load_and_clean to_numeric_str).
#[local] Abbreviation aggregate := (aggregate float_add float_div).
#[local] Abbreviation analyze_letterboxd :=
  (analyze_letterboxd int_of_str to_numeric_str float_add float_div).

(** C2, as the code has it.  The rows that need a lookup are the cleaned user
    records whose key, the title followed by the decimal text of the year,
    is not a key of the cache, and one fetch is issued per such record, in
    record order: every record with a missing key has its fetch, no fetch is
    for a key the cache has, and two records with the same missing key give
    two fetches. *)
Theorem one_fetch_per_missing_row (client : AsyncClient) (cache : list Cache.row)
    (upload : list Upload.row) :
  let df_user := load_and_clean upload in
  let r := analyze_letterboxd client cache upload in
  fetched r =
    map (fun row => (User.Name row, User.Year row))
        (filter (fun row =>
                   negb (existsb (String.eqb (User.key row)) (map Cache.key cache)))
                df_user)
  /\ List.length (fetched r) = List.length (to_fetch cache df_user)
  /\ (forall row, In row df_user ->
                  ~ In (User.key row) (map Cache.key cache) ->
                  In (User.Name row, User.Year row) (fetched r))
  /\ (forall n y, In (n, y) (fetched r) ->
                  ~ In (n ++ str y) (map Cache.key cache))
  /\ (forall n y q1 q2 u1 u2,
         ~ In (n ++ str y) (map Cache.key cache) ->
         fetched (analyze_letterboxd client cache
                    [ {| Upload.Name := Some n; Upload.Year := y;
                         Upload.Rating := Number q1; Upload.Letterboxd_URI := u1 |};
                      {| Upload.Name := Some n; Upload.Year := y;
                         Upload.Rating := Number q2; Upload.Letterboxd_URI := u2 |} ])
         = [(n, y); (n, y)]).
Proof.
  intros df_user r. subst r.
  split; [|split; [|split; [|split]]].
  - apply analyze_fetched.
  - rewrite analyze_fetched. unfold tasks_of. apply length_map.
  - intros row Hin Hnot. rewrite analyze_fetched.
    apply (in_map (fun row => (User.Name row, User.Year row))).
    apply to_fetch_In. split; trivial.
    destruct (known_mask cache row) eqn:E; trivial.
    apply known_mask_In in E. contradiction.
  - intros n y Hin. rewrite analyze_fetched in Hin.
    apply in_map_iff in Hin as (row & [= <- <-] & Hrow).
    apply to_fetch_In in Hrow as (_ & Hk).
    intros Hc. apply (known_mask_In cache row) in Hc. congruence.
  - intros n y q1 q2 u1 u2 Hnot. rewrite analyze_fetched. simpl.
    unfold to_fetch. simpl.
    assert (Hk : forall q u,
               known_mask cache {| User.Name := n; User.Year := y;
                                   User.Rating := q; User.Letterboxd_URI := u |}
               = false).
    { intros q u. destruct (known_mask cache _) eqn:E; trivial.
      apply known_mask_In in E. contradiction. }
    now rewrite !Hk.
Qed.


(** C9.  Whatever a run does, the titles and years of the cache file it
    leaves are those of the file it found, in the same order, followed by
    those of the rows it appended (none when nothing was fetched or the run
    raised before the write): every (title, year) present before is present
    after, and the file has at least as many rows as before. *)
Theorem cache_only_grows (client : AsyncClient) (cache : list Cache.row)
    (upload : list Upload.row) :
  exists appended,
    map cache_film (cache_file (analyze_letterboxd client cache upload))
    = (map cache_film cache ++ map cache_film appended)%list
    /\ incl (map cache_film cache)
            (map cache_film (cache_file (analyze_letterboxd client cache upload)))
    /\ (List.length cache
        <= List.length (cache_file (analyze_letterboxd client cache upload)))%nat.
Proof.
  rewrite analyze_cache_file, update_cache_eq. simpl.
  destruct (new_rows _ _ _) as [e | rs].
  - exists []. simpl. rewrite app_nil_r. repeat split.
    + apply incl_refl.
    + lia.
  - exists rs. rewrite map_app, length_app. repeat split.
    + apply incl_appl, incl_refl.
    + lia.
Qed.

Lemma clean_invalid (r : Upload.row) :
  Upload.Name r = None \/ to_numeric (Upload.Rating r) = None ->
  clean r = None.
Proof.
  unfold clean. intros [-> | ->]; trivial. now destruct (Upload.Name r).
Qed.

Lemma load_and_clean_app (l1 l2 : list Upload.row) :
  load_and_clean (l1 ++ l2) = (load_and_clean l1 ++ load_and_clean l2)%list.
Proof. unfold load_and_clean. apply flat_map_app. Qed.

End Enrichment.

(** ** The returned document *)

Section Returned.

Variable int_of_str : string -> option Z.
Variable to_numeric_str : string -> option Q.
Variable float_add : Q -> Q -> Q.
Variable float_div : Q -> Q -> Q.

#[local] Abbreviation load_and_clean := (load_and_clean to_numeric_str).
#[local] Abbreviation sum := (sum float_add).
#[local] Abbreviation avg := (avg float_add float_div).
#[local] Abbreviation aggregate := (aggregate float_add float_div).
#[local] Abbreviation analyze_letterboxd :=
  (analyze_letterboxd int_of_str to_numeric_str float_add float_div).

Lemma of_list_fold (items : list json) :
  forall counts,
    Forall (fun x => Counter.hashable x = true) items ->
    fold_left
      (fun acc x =>
         counts <- acc ;;
         if Counter.hashable x then ret (Counter.add x counts) else raise TypeError)
      items (inr counts)
    = inr (fold_left (fun c x => Counter.add x c) items counts).
Proof.
  induction items as [|x items IH]; intros counts Hall; simpl; trivial.
  inversion Hall as [|? ? Hx Hrest]; subst.
  rewrite Hx. apply IH, Hrest.
Qed.

Lemma of_list_hashable (items : list json) :
  Forall (fun x => Counter.hashable x = true) items ->
  Counter.of_list items = inr (fold_left (fun c x => Counter.add x c) items []).
Proof. exact (of_list_fold items []). Qed.

Lemma aggregate_inv (merged : list Merged.row) (a : analysis) :
  aggregate merged = inr a ->
  exists top,
    top_director_data (female_director_list (tally merged)) = inr top
    /\ a = {| stats_of :=
                {| female_avg := avg (female_ratings (tally merged));
                   other_avg := avg (other_ratings (tally merged));
                   most_watched_female_director := top |};
              best_rated_female_directed := top_female_picks merged |}.
Proof.
  unfold aggregate.
  destruct (top_director_data _) as [e | top]; simpl; [discriminate|].
  intros [= <-]. now exists top.
Qed.

(** The handler returns whenever the names it counts are hashable (strings,
    numbers, [None]). *)
Lemma aggregate_returns (merged : list Merged.row) :
  Forall (fun nm => Counter.hashable nm = true) (female_director_list (tally merged)) ->
  exists a, aggregate merged = inr a.
Proof.
  intros H. unfold aggregate, top_director_data.
  rewrite (of_list_hashable _ H). simpl. eauto.
Qed.

Lemma merge_In (df_user : list User.row) (full_cache : list Cache.row) (row : Merged.row) :
  In row (merge df_user full_cache) <->
  exists u c, In u df_user /\ In c full_cache
              /\ same_film u c = true /\ row = join u c.
Proof.
  unfold merge. rewrite in_flat_map. split.
  - intros (u & Hu & Hrow). apply in_map_iff in Hrow as (c & <- & Hc).
    apply filter_In in Hc as (Hc & Hsame). now exists u, c.
  - intros (u & c & Hu & Hc & Hsame & ->). exists u. split; trivial.
    apply in_map, filter_In. now split.
Qed.

Lemma same_film_eq (u : User.row) (c : Cache.row) :
  same_film u c = true <->
  Cache.Name c = User.Name u /\ Cache.Year c = User.Year u.
Proof.
  unfold same_film. rewrite andb_true_iff, String.eqb_eq, Z.eqb_eq.
  split; intros [H1 H2]; split; congruence.
Qed.

Lemma analyze_returned (client : AsyncClient) (cache : list Cache.row)
    (upload : list Upload.row) (a : analysis) :
  returned (analyze_letterboxd client cache upload) = inr a ->
  aggregate (merge (load_and_clean upload)
                   (cache_file (analyze_letterboxd client cache upload))) = inr a.
Proof.
  unfold analyze_letterboxd.
  destruct (update_cache _ _ _ _) as [tasks [e | full_cache]]; simpl;
    [discriminate | trivial].
Qed.

(** C6.  [top_female_picks] is the frame [best_df] with [TMDB_ID] filled: a
    merged row is in [best_df] exactly when it has a Female director and no
    merged row with a Female director has a higher rating.  A pick shows 0
    where the merged row has no id and the id itself otherwise.  In a run
    that returns, the picks are those of the merged frame, and every merged
    row carries the [TMDB_ID] of a row of the cache file the run leaves for
    the same title and year: a pick shown with 0 for a missing id comes from
    a stored row whose id is still missing. *)
Theorem top_female_picks_exact :
  (forall merged,
      top_female_picks merged = map to_pick (best_df merged)
      /\ forall row, In row (best_df merged) <-> is_top_pick merged row)
  /\ (forall n y r u ds,
      to_pick {| Merged.Name := n; Merged.Year := y; Merged.Rating := r;
                 Merged.Letterboxd_URI := u; Merged.TMDB_ID := None;
                 Merged.Directors := ds |}
      = {| Pick.Name := n; Pick.Year := y; Pick.TMDB_ID := 0;
           Pick.Rating := r; Pick.Letterboxd_URI := u |})
  /\ (forall n y r u ds id,
      to_pick {| Merged.Name := n; Merged.Year := y; Merged.Rating := r;
                 Merged.Letterboxd_URI := u; Merged.TMDB_ID := Some id;
                 Merged.Directors := ds |}
      = {| Pick.Name := n; Pick.Year := y; Pick.TMDB_ID := id;
           Pick.Rating := r; Pick.Letterboxd_URI := u |})
  /\ (forall client cache upload a,
      let r := analyze_letterboxd client cache upload in
      let merged := merge (load_and_clean upload) (cache_file r) in
      returned r = inr a ->
      best_rated_female_directed a = top_female_picks merged
      /\ forall row, In row merged ->
           exists c, In c (cache_file r)
                     /\ Cache.Name c = Merged.Name row
                     /\ Cache.Year c = Merged.Year row
                     /\ Cache.TMDB_ID c = Merged.TMDB_ID row).
Proof.
  split; [|split; [|split]].
  - intros merged. split.
    + apply top_female_picks_best.
    + intros row. apply best_df_top_pick.
  - reflexivity.
  - reflexivity.
  - intros client cache upload a r merged Hret.
    apply analyze_returned, aggregate_inv in Hret as (top & _ & ->).
    split; [reflexivity|].
    intros row Hin. apply merge_In in Hin as (u & c & _ & Hc & Hsame & ->).
    apply same_film_eq in Hsame as (Hn & Hy).
    exists c. simpl. auto.
Qed.

Lemma exact_additions (ratings : list Q) :
  forall acc,
    adds_exactly float_add acc ratings ->
    (fold_left float_add ratings acc == acc + exact_sum ratings)%Q.
Proof.
  induction ratings as [|x rest IH]; simpl; intros acc.
  - intros _. now rewrite Qplus_0_r.
  - intros (Hx & Hrest). rewrite (IH _ Hrest), Hx. ring.
Qed.

Lemma length_nonzero_Q {A : Type} (x : A) (l : list A) :
  ~ (inject_Z (Z.of_nat (List.length (x :: l))) == 0)%Q.
Proof. unfold Qeq. simpl. lia. Qed.

(** C7.  In a run that returns, [female_avg] and [other_avg] are 0 for an
    empty bucket and otherwise the quotient, by the length of the bucket, of
    the sum Python forms from 0 over the bucket, the buckets being the lists
    the loop filled.  Where the additions and the division lose nothing,
    that sum is the exact sum of the ratings and the average times the
    length is the exact sum: the average is the arithmetic mean.  With no
    user record the run fetches nothing, leaves the cache file as it is and
    returns two averages 0, no most watched director and no pick. *)
Theorem averages_and_empty_input :
  (forall merged a,
      aggregate merged = inr a ->
      female_avg (stats_of a)
      = match female_ratings (tally merged) with
        | [] => 0%Q
        | _ :: _ =>
            float_div
              (fold_left float_add (female_ratings (tally merged)) 0%Q)
              (inject_Z (Z.of_nat (List.length (female_ratings (tally merged)))))
        end
      /\ other_avg (stats_of a)
         = match other_ratings (tally merged) with
           | [] => 0%Q
           | _ :: _ =>
               float_div
                 (fold_left float_add (other_ratings (tally merged)) 0%Q)
                 (inject_Z (Z.of_nat (List.length (other_ratings (tally merged)))))
           end)
  /\ (forall ratings,
      adds_exactly float_add 0%Q ratings ->
      (fold_left float_add ratings 0 == exact_sum ratings)%Q)
  /\ (forall x l,
      adds_exactly float_add 0%Q (x :: l) ->
      (float_div (fold_left float_add (x :: l) 0)
                 (inject_Z (Z.of_nat (List.length (x :: l))))
       == fold_left float_add (x :: l) 0
          / inject_Z (Z.of_nat (List.length (x :: l))))%Q ->
      (avg (x :: l) * inject_Z (Z.of_nat (List.length (x :: l)))
       == exact_sum (x :: l))%Q)
  /\ (forall client cache,
      analyze_letterboxd client cache [] =
      {| fetched := [];
         cache_file := cache;
         returned :=
           inr {| stats_of :=
                    {| female_avg := 0%Q; other_avg := 0%Q;
                       most_watched_female_director := None |};
                  best_rated_female_directed := [] |} |}).
Proof.
  split; [|split; [|split]].
  - intros merged a Ha. apply aggregate_inv in Ha as (top & _ & ->). simpl.
    split.
    + now destruct (female_ratings (tally merged)).
    + now destruct (other_ratings (tally merged)).
  - intros ratings H. rewrite (exact_additions ratings 0%Q H). ring.
  - intros x l Hadd Hdiv.
    change (avg (x :: l))
      with (float_div (fold_left float_add (x :: l) 0%Q)
                      (inject_Z (Z.of_nat (List.length (x :: l))))).
    rewrite Hdiv, (exact_additions (x :: l) 0%Q Hadd), Qplus_0_l.
    rewrite Qmult_comm. apply Qmult_div_r, length_nonzero_Q.
  - reflexivity.
Qed.

End Returned.

(** ** The fetcher *)

Section Fetcher.

Variable client : AsyncClient.

Lemma try_steps (name : string) (year : Z) :
  get_movie_data_try client name year =
  (results <- search_results client name year ;;
   if negb (Py.truthy results) then ret (JNull, [])
   else
     movie_id <- first_id results ;;
     crew <- credits_crew client movie_id ;;
     directors <- crew_list crew ;;
     ret (movie_id, directors)).
Proof.
  unfold get_movie_data_try, search_results, first_id, credits_crew, crew_list.
  simpl.
  destruct (client (SearchMovie name year)) as [e | search_res]; trivial.
  destruct (Response_json search_res) as [e | search_body]; trivial.
  destruct (Py.get search_body "results" JNull) as [e | results]; trivial.
  destruct (negb (Py.truthy results)); trivial.
  destruct (Py.item0 results) as [e | first]; trivial.
  destruct (Py.getitem first "id") as [e | movie_id]; trivial.
  destruct (client (MovieCredits movie_id)) as [e | credits_res]; trivial.
  destruct (Response_json credits_res) as [e | credits_body]; trivial.
  destruct (Py.get credits_body "crew" (JArr [])) as [e | crew]; trivial.
  now destruct (Py.iter crew).
Qed.

Lemma fetch_fails_raises (name : string) (year : Z) :
  fetch_fails client name year ->
  exists e, get_movie_data_try client name year = inl e.
Proof.
  rewrite try_steps.
  intros [e He | results e Hr Ht He | results mid e Hr Ht Hid He
          | results mid crew e Hr Ht Hid Hc He];
    rewrite ?Hr; simpl; rewrite ?Ht; simpl; rewrite ?Hid; simpl;
    rewrite ?Hc; simpl; rewrite ?He; simpl; eauto.
Qed.

Lemma raises_fetch_fails (name : string) (year : Z) (e : exn) :
  get_movie_data_try client name year = inl e ->
  fetch_fails client name year.
Proof.
  rewrite try_steps.
  destruct (search_results client name year) as [e1 | results] eqn:Hr; simpl.
  { intros _. now apply search_fails with e1. }
  destruct (Py.truthy results) eqn:Ht; simpl; [|discriminate].
  destruct (first_id results) as [e2 | mid] eqn:Hid; simpl.
  { intros _. now apply first_id_fails with results e2. }
  destruct (credits_crew client mid) as [e3 | crew] eqn:Hc; simpl.
  { intros _. now apply credits_fail with results mid e3. }
  destruct (crew_list crew) as [e4 | ds] eqn:Hl; simpl; [|discriminate].
  intros _. now apply crew_fails with results mid crew e4.
Qed.

Lemma failed_fetch_result (name : string) (year : Z) :
  fetch_fails client name year ->
  get_movie_data client name year = (JNull, []).
Proof.
  intros H. apply fetch_fails_raises in H as (e & He).
  unfold get_movie_data. now rewrite He.
Qed.

(** The events the fetcher meets on the network, as failures of a step. *)
Lemma search_request_raises (name : string) (year : Z) (e : exn) :
  client (SearchMovie name year) = inl e -> fetch_fails client name year.
Proof.
  intros H. apply search_fails with e. unfold search_results. now rewrite H.
Qed.

Lemma search_body_undecodable (name : string) (year : Z) :
  client (SearchMovie name year) = inr Undecodable -> fetch_fails client name year.
Proof.
  intros H. apply search_fails with JSONDecodeError.
  unfold search_results. now rewrite H.
Qed.

Lemma credits_request_raises (name : string) (year : Z) (results movie_id : json) (e : exn) :
  search_results client name year = inr results ->
  Py.truthy results = true ->
  first_id results = inr movie_id ->
  client (MovieCredits movie_id) = inl e ->
  fetch_fails client name year.
Proof.
  intros Hr Ht Hid H. apply credits_fail with results movie_id e; trivial.
  unfold credits_crew. now rewrite H.
Qed.

Lemma credits_body_undecodable (name : string) (year : Z) (results movie_id : json) :
  search_results client name year = inr results ->
  Py.truthy results = true ->
  first_id results = inr movie_id ->
  client (MovieCredits movie_id) = inr Undecodable ->
  fetch_fails client name year.
Proof.
  intros Hr Ht Hid H. apply credits_fail with results movie_id JSONDecodeError; trivial.
  unfold credits_crew. now rewrite H.
Qed.

Lemma gather_app (tasks1 tasks2 : list (string * Z)) :
  gather client (tasks1 ++ tasks2) = (gather client tasks1 ++ gather client tasks2)%list.
Proof. unfold gather. apply map_app. Qed.

Lemma crew_directors_ok (crew : list json) :
  Forall (fun p => crew_entry_ok p = true) crew ->
  crew_directors crew = inr (kept_directors crew).
Proof.
  unfold kept_directors.
  induction crew as [|p crew IH]; intros Hall; simpl; trivial.
  inversion Hall as [|? ? Hp Hrest]; subst.
  specialize (IH Hrest).
  unfold crew_entry_ok, has, is_director_entry in *.
  destruct (Py.getitem p "job") as [e | job]; simpl in *; [discriminate|].
  destruct (Py.eq_str job "Director"); simpl in *; trivial.
  unfold to_director, field, classify.
  destruct (Py.getitem p "name") as [e | nm]; simpl in *; [discriminate|].
  destruct (Py.getitem p "gender") as [e | g]; simpl in *; [discriminate|].
  now rewrite IH.
Qed.

Lemma crew_directors_bad (crew : list json) :
  Exists (fun p => crew_entry_ok p = false) crew ->
  exists e, crew_directors crew = inl e.
Proof.
  induction 1 as [p crew Hp | p crew Hex IH]; simpl.
  - unfold crew_entry_ok, has, is_director_entry in Hp.
    destruct (Py.getitem p "job") as [e | job]; simpl in *; eauto.
    destruct (Py.eq_str job "Director"); simpl in *; [|discriminate].
    destruct (Py.getitem p "name") as [e | nm]; simpl in *; eauto.
    destruct (Py.getitem p "gender") as [e | g]; simpl in *; eauto.
    discriminate.
  - destruct IH as (e & He). rewrite He.
    destruct (Py.getitem p "job") as [e' | job]; simpl; eauto.
    destruct (Py.eq_str job "Director"); simpl; eauto.
    destruct (Py.getitem p "name") as [e' | nm]; simpl; eauto.
    destruct (Py.getitem p "gender") as [e' | g]; simpl; eauto.
Qed.

End Fetcher.

Section Fetched.

Variable client : AsyncClient.

Lemma no_result_fetch (name : string) (year : Z) (results : json) :
  search_results client name year = inr results ->
  Py.truthy results = false ->
  get_movie_data client name year = (JNull, []).
Proof.
  intros Hr Ht. unfold get_movie_data.
  rewrite try_steps, Hr. simpl. now rewrite Ht.
Qed.

Lemma is_director_entry_job (p : json) :
  is_director_entry p = true <-> Py.getitem p "job" = inr (JStr "Director").
Proof.
  unfold is_director_entry.
  destruct (Py.getitem p "job") as [e | job]; [split; discriminate|].
  destruct job; simpl; try (split; discriminate).
  rewrite String.eqb_eq. split; [now intros -> | now intros [= ->]].
Qed.

(** C4, as the code has it.  With a search that has results, the first of
    which has an id, and credits whose crew entries all have a job and, for
    the job "Director", a name and a gender, [get_movie_data] returns that
    id with the entries whose job is "Director", each Female when its gender
    code equals 1 and Other for any other code, 0 and null included.  When
    some crew entry has no job, or a Director entry has no name or no
    gender, it returns [(None, [])]; so it does when the search has no
    result. *)
Theorem fetch_classifies_directors (name : string) (year : Z) :
  (forall first others movie_id crew,
      search_results client name year = inr (JArr (first :: others)) ->
      Py.getitem first "id" = inr movie_id ->
      credits_crew client movie_id = inr (JArr crew) ->
      (Forall (fun p => crew_entry_ok p = true) crew ->
       get_movie_data client name year = (movie_id, kept_directors crew))
      /\ (Exists (fun p => crew_entry_ok p = false) crew ->
          get_movie_data client name year = (JNull, [])))
  /\ (search_results client name year = inr (JArr []) ->
      get_movie_data client name year = (JNull, []))
  /\ (forall p, is_director_entry p = true <->
                Py.getitem p "job" = inr (JStr "Director"))
  /\ (forall nm g extra,
      to_director (JObj (("name", nm) :: ("gender", g) :: extra))
      = {| name := nm; gender := classify g |})
  /\ (forall code, classify (JInt code) = if code =? 1 then "Female" else "Other")
  /\ classify JNull = "Other".
Proof.
  split; [|split; [|split; [|split; [|split]]]].
  - intros first others movie_id crew Hr Hid Hc.
    assert (Hfirst : first_id (JArr (first :: others)) = inr movie_id)
      by (unfold first_id; simpl; exact Hid).
    split.
    + intros Hok. unfold get_movie_data.
      rewrite try_steps, Hr. simpl. rewrite Hfirst. simpl. rewrite Hc.
      unfold crew_list. simpl. now rewrite (crew_directors_ok crew Hok).
    + intros Hbad. apply failed_fetch_result.
      destruct (crew_directors_bad crew Hbad) as (e & He).
      now apply crew_fails with (JArr (first :: others)) movie_id (JArr crew) e.
  - intros Hr. now apply no_result_fetch with (JArr []).
  - apply is_director_entry_job.
  - reflexivity.
  - reflexivity.
  - reflexivity.
Qed.

Variable int_of_str : string -> option Z.

#[local] Abbreviation new_row := (new_row int_of_str).

(** C5, as the code has it.  The cache entry built for a user row from its
    fetch has a missing [TMDB_ID] and no director when no match was found
    upstream or a step of the fetch raised; it has the id found, with the
    directors fetched, when the fetch ended with an integer id other
    than 0. *)
Theorem unmatched_or_failed_entry_is_null (row : User.row) :
  let nm := User.Name row in
  let y := User.Year row in
  let entry := new_row row (get_movie_data client nm y) in
  (spec_match_found client nm y = false \/ fetch_fails client nm y ->
   entry = inr {| Cache.Name := nm; Cache.Year := y;
                  Cache.URI := User.Letterboxd_URI row;
                  Cache.TMDB_ID := None; Cache.Directors := [] |})
  /\ (forall id directors,
      get_movie_data_try client nm y = inr (JInt id, directors) ->
      id <> 0 ->
      entry = inr {| Cache.Name := nm; Cache.Year := y;
                     Cache.URI := User.Letterboxd_URI row;
                     Cache.TMDB_ID := Some id; Cache.Directors := directors |}).
Proof.
  intros nm y entry. subst entry. split.
  - intros Hnone.
    assert (Hnull : get_movie_data client nm y = (JNull, [])).
    { destruct Hnone as [Hno | Hfail]; [|now apply failed_fetch_result].
      unfold spec_match_found in Hno.
      destruct (search_results client nm y) as [e | results] eqn:Hr.
      - apply failed_fetch_result. now apply search_fails with e.
      - now apply no_result_fetch with results. }
    now rewrite Hnull.
  - intros id directors Htry Hid. unfold get_movie_data. rewrite Htry.
    unfold new_row. simpl.
    apply Z.eqb_neq in Hid. now rewrite Hid.
Qed.

End Fetched.

(** ** Concrete runs *)

Section Runs.

#[local] Abbreviation run_of := (analyze_letterboxd decimal decimal_rating Qplus Qdiv).

(** C2, an instance: two ratings of a film the empty cache does not know. *)
Lemma one_fetch_per_missing_row_run :
  ~ In ("Orlando" ++ str 1992) (map Cache.key [])
  /\ fetched (run_of offline []
                [ {| Upload.Name := Some "Orlando"; Upload.Year := 1992;
                     Upload.Rating := Number (9 # 2); Upload.Letterboxd_URI := "a" |};
                  {| Upload.Name := Some "Orlando"; Upload.Year := 1992;
                     Upload.Rating := Number 4; Upload.Letterboxd_URI := "b" |} ])
     = [("Orlando", 1992); ("Orlando", 1992)].
Proof.
  assert (H : ~ In ("Orlando" ++ str 1992) (map Cache.key [])) by (simpl; tauto).
  split; [exact H|].
  exact (proj2 (proj2 (proj2 (proj2
           (one_fetch_per_missing_row decimal decimal_rating Qplus Qdiv offline [] []))))
           "Orlando" 1992 (9 # 2) 4%Q "a" "b" H).
Defined.

(** C2 as the specification words it fails: the two records of one missing
    film are fetched twice where there is one distinct key, and a record
    whose title and year are not in the cache is not fetched when the
    concatenated key of another film equals its own. *)
Lemma distinct_missing_keys_counterexample :
  fetched (run_of offline [] orlando_twice) = [("Orlando", 1992); ("Orlando", 1992)]
  /\ spec_missing_keys [] (load_and_clean decimal_rating orlando_twice)
     = [("Orlando", 1992)]
  /\ fetched (run_of offline [] orlando_twice)
     <> spec_missing_keys [] (load_and_clean decimal_rating orlando_twice)
  /\ fetched (run_of offline [apollo_entry] [rated "Apollo 11" 995 3]) = []
  /\ spec_missing_keys [apollo_entry]
       (load_and_clean decimal_rating [rated "Apollo 11" 995 3])
     = [("Apollo 11", 995)].
Proof.
  split; [reflexivity|]. split; [reflexivity|]. split; [|split; reflexivity].
  vm_compute. discriminate.
Qed.

(** C4, an instance: a crew of a director coded 1, an editor, a director
    coded 0 and a director whose gender is null. *)
Lemma fetch_classifies_directors_run :
  get_movie_data (service orlando_crew) "Orlando" 1992
  = (JInt 550,
     [ {| name := JStr "Sally Potter"; gender := "Female" |};
       {| name := JStr "N. N."; gender := "Other" |};
       {| name := JStr "M. M."; gender := "Other" |} ]).
Proof.
  apply (proj1 (proj1 (fetch_classifies_directors (service orlando_crew) "Orlando" 1992)
                  (JObj [("id", JInt 550)]) [] (JInt 550) orlando_crew
                  eq_refl eq_refl eq_refl)).
  repeat constructor.
Defined.

(** C4 as worded fails: a Director entry without gender field, and a crew
    entry without job field, each make the call return [(None, [])] where
    the claim has the person classified Other. *)
Lemma missing_field_counterexample :
  get_movie_data (service [ person "Director" "Sally Potter" [] ]) "Orlando" 1992
  = (JNull, [])
  /\ get_movie_data (service [ person "Director" "Sally Potter" [] ]) "Orlando" 1992
     <> (JInt 550, [ {| name := JStr "Sally Potter"; gender := "Other" |} ])
  /\ get_movie_data
       (service [ JObj [("name", JStr "Sally Potter"); ("gender", JInt 1)] ])
       "Orlando" 1992
     = (JNull, []).
Proof.
  split; [reflexivity|]. split; [|reflexivity].
  vm_compute. discriminate.
Qed.

(** C5, an instance: no connection, so the search itself raises. *)
Lemma unmatched_or_failed_entry_is_null_run :
  fetch_fails offline "Orlando" 1992
  /\ new_row decimal orlando_row (get_movie_data offline "Orlando" 1992)
     = inr (orlando_entry None []).
Proof.
  assert (H : fetch_fails offline "Orlando" 1992)
    by (apply search_fails with ConnectError; reflexivity).
  split; [exact H|].
  exact (proj1 (unmatched_or_failed_entry_is_null offline decimal orlando_row)
               (or_intror H)).
Defined.

(** C5 as worded fails: the search found film 7, the credits request timed
    out, and the entry written has no id. *)
Lemma matched_but_null_counterexample :
  spec_match_found credits_down "Orlando" 1992 = true
  /\ new_row decimal orlando_row (get_movie_data credits_down "Orlando" 1992)
     = inr (orlando_entry None [])
  /\ ~ (forall entry,
          new_row decimal orlando_row (get_movie_data credits_down "Orlando" 1992)
          = inr entry ->
          (Cache.TMDB_ID entry = None <->
           spec_match_found credits_down "Orlando" 1992 = false)).
Proof.
  split; [reflexivity|]. split; [reflexivity|].
  intros H. specialize (H (orlando_entry None []) eq_refl).
  destruct H as [H _]. specialize (H eq_refl). discriminate H.
Qed.

(** What the code does with a match whose id is 0: [if m_id] takes the else
    branch, and the entry has no id although it has the directors. *)
Example zero_id_is_stored_as_missing :
  get_movie_data
    (fun req => match req with
                | SearchMovie _ _ => inr (one_result (JInt 0))
                | MovieCredits _ =>
                    inr (crew_of [person "Director" "Sally Potter" [("gender", JInt 1)]])
                end) "Orlando" 1992
  = (JInt 0, [potter])
  /\ new_row decimal orlando_row (JInt 0, [potter]) = inr (orlando_entry None [potter]).
Proof. split; reflexivity. Qed.

(** C6, an instance: the cache holds Orlando without id and with its Female
    director; the pick shows 0 and the cache file keeps the missing id. *)
Lemma top_female_picks_exact_run :
  returned (run_of offline [orlando_entry None [potter]] [rated "Orlando" 1992 (9 # 2)])
  = inr orlando_analysis
  /\ cache_file (run_of offline [orlando_entry None [potter]] [rated "Orlando" 1992 (9 # 2)])
     = [orlando_entry None [potter]]
  /\ best_rated_female_directed orlando_analysis
     = top_female_picks
         (merge (load_and_clean decimal_rating [rated "Orlando" 1992 (9 # 2)])
                [orlando_entry None [potter]])
  /\ forall row,
       In row (merge (load_and_clean decimal_rating [rated "Orlando" 1992 (9 # 2)])
                     [orlando_entry None [potter]]) ->
       exists c, In c [orlando_entry None [potter]]
                 /\ Cache.Name c = Merged.Name row
                 /\ Cache.Year c = Merged.Year row
                 /\ Cache.TMDB_ID c = Merged.TMDB_ID row.
Proof.
  split; [reflexivity|]. split; [reflexivity|].
  exact (proj2 (proj2 (proj2 (top_female_picks_exact decimal decimal_rating Qplus Qdiv)))
           offline [orlando_entry None [potter]] [rated "Orlando" 1992 (9 # 2)]
           orlando_analysis eq_refl).
Defined.

(** C7, an instance: one merged row, rated 9/2, with one Female director;
    then the ratings 9/2 and 4, whose sum and half are exact. *)
Lemma averages_and_empty_input_run :
  aggregate Qplus Qdiv [join orlando_row (orlando_entry None [potter])]
  = inr orlando_analysis
  /\ (female_avg (stats_of orlando_analysis) = (9 # 2)%Q
      /\ other_avg (stats_of orlando_analysis) = 0%Q)
  /\ adds_exactly Qplus 0%Q [9 # 2; 4]%Q
  /\ (avg Qplus Qdiv [9 # 2; 4] * inject_Z 2 == exact_sum [9 # 2; 4])%Q.
Proof.
  assert (Hadd : adds_exactly Qplus 0%Q [9 # 2; 4]%Q)
    by (simpl; repeat split; try reflexivity).
  split; [reflexivity|]. split; [|split; [exact Hadd|]].
  - exact (proj1 (averages_and_empty_input decimal decimal_rating Qplus Qdiv)
             [join orlando_row (orlando_entry None [potter])] orlando_analysis
             eq_refl).
  - apply (proj1 (proj2 (proj2
             (averages_and_empty_input decimal decimal_rating Qplus Qdiv)))
             (9 # 2)%Q [4%Q] Hadd).
    reflexivity.
Defined.



End Runs.

(** * Further properties of the code *)

(** ** The fetcher on its own *)

Section FetchAlone.

Lemma search_results_agree (client client' : AsyncClient) (name : string) (year : Z) :
  client' (SearchMovie name year) = client (SearchMovie name year) ->
  search_results client' name year = search_results client name year.
Proof. unfold search_results. now intros ->. Qed.

Lemma credits_crew_agree (client client' : AsyncClient) (movie_id : json) :
  client' (MovieCredits movie_id) = client (MovieCredits movie_id) ->
  credits_crew client' movie_id = credits_crew client movie_id.
Proof. unfold credits_crew. now intros ->. Qed.

(** X1.  The result of a fetch is decided by the answers to the requests it
    sends: a second service that answers those requests (the search for the
    title and year and, when the search has a first result with an id, the
    credits of that id) in the same way gives the same result and receives
    the same requests, whatever it answers to any other request. *)
Theorem fetch_depends_on_own_requests (client client' : AsyncClient)
    (name : string) (year : Z)
    (Hsame : forall req, In req (requests_issued client name year) ->
                         client' req = client req) :
  get_movie_data client' name year = get_movie_data client name year
  /\ requests_issued client' name year = requests_issued client name year.
Proof.
  assert (Hs : search_results client' name year = search_results client name year).
  { apply search_results_agree, Hsame. unfold requests_issued. simpl. auto. }
  unfold get_movie_data, requests_issued in *.
  rewrite !try_steps, Hs.
  destruct (search_results client name year) as [e | results]; simpl; auto.
  destruct (Py.truthy results); simpl; auto.
  destruct (first_id results) as [e | movie_id]; simpl; auto.
  rewrite (credits_crew_agree client client' movie_id); auto.
  apply Hsame. simpl. auto.
Qed.

(** X1, an instance: a service that is down for every other request. *)
Lemma fetch_depends_on_own_requests_run :
  get_movie_data flaky "Orlando" 1992 = (JInt 550, orlando_directors)
  /\ requests_issued flaky "Orlando" 1992
     = [SearchMovie "Orlando" 1992; MovieCredits (JInt 550)].
Proof.
  apply (fetch_depends_on_own_requests (service orlando_crew) flaky "Orlando" 1992).
  intros req [<- | [<- | []]]; reflexivity.
Defined.

Lemma crew_directors_genders (crew : list json) :
  forall ds, crew_directors crew = inr ds -> Forall gender_written ds.
Proof.
  induction crew as [|p crew IH]; simpl; intros ds.
  - intros [= <-]. constructor.
  - destruct (Py.getitem p "job") as [e | job]; simpl; [discriminate|].
    destruct (Py.eq_str job "Director"); [|apply IH].
    destruct (Py.getitem p "name") as [e | nm]; simpl; [discriminate|].
    destruct (Py.getitem p "gender") as [e | g]; simpl; [discriminate|].
    destruct (crew_directors crew) as [e | ds']; simpl; [discriminate|].
    intros [= <-]. constructor; [|now apply IH].
    unfold gender_written. simpl. destruct (Py.eq_int g 1); auto.
Qed.

Lemma crew_directors_length (crew : list json) :
  forall ds, crew_directors crew = inr ds ->
             (List.length ds <= List.length crew)%nat.
Proof.
  induction crew as [|p crew IH]; simpl; intros ds.
  - intros [= <-]. simpl. lia.
  - destruct (Py.getitem p "job") as [e | job]; simpl; [discriminate|].
    destruct (Py.eq_str job "Director").
    + destruct (Py.getitem p "name") as [e | nm]; simpl; [discriminate|].
      destruct (Py.getitem p "gender") as [e | g]; simpl; [discriminate|].
      destruct (crew_directors crew) as [e | ds']; simpl; [discriminate|].
      intros [= <-]. simpl. specialize (IH ds' eq_refl). lia.
    + intros H. specialize (IH ds H). lia.
Qed.

Lemma get_movie_data_genders (client : AsyncClient) (name : string) (year : Z) :
  Forall gender_written (snd (get_movie_data client name year)).
Proof.
  unfold get_movie_data. rewrite try_steps.
  destruct (search_results client name year) as [e | results]; simpl;
    [constructor|].
  destruct (Py.truthy results); simpl; [|constructor].
  destruct (first_id results) as [e | movie_id]; simpl; [constructor|].
  destruct (credits_crew client movie_id) as [e | crew]; simpl; [constructor|].
  unfold crew_list.
  destruct (Py.iter crew) as [e | ps]; simpl; [constructor|].
  destruct (crew_directors ps) as [e | ds] eqn:Hds; simpl; [constructor|].
  now apply crew_directors_genders with ps.
Qed.

(** X2.  Whatever the service answers, every director a fetch returns has
    the gender "Female" or "Other", and there are no more of them than crew
    entries in the credits document. *)
Theorem fetch_genders (client : AsyncClient) (name : string) (year : Z) :
  Forall gender_written (snd (get_movie_data client name year))
  /\ forall results movie_id crew,
       search_results client name year = inr results ->
       first_id results = inr movie_id ->
       credits_crew client movie_id = inr (JArr crew) ->
       (List.length (snd (get_movie_data client name year)) <= List.length crew)%nat.
Proof.
  split; [apply get_movie_data_genders|].
  intros results movie_id crew Hr Hid Hc.
  unfold get_movie_data. rewrite try_steps, Hr. simpl.
  destruct (Py.truthy results); simpl; [|lia].
  rewrite Hid. simpl. rewrite Hc. unfold crew_list. simpl.
  destruct (crew_directors crew) as [e | ds] eqn:Hds; simpl; [lia|].
  now apply crew_directors_length.
Qed.

(** X2, an instance: four crew entries, three directors. *)
Lemma fetch_genders_run :
  Forall gender_written (snd (get_movie_data (service orlando_crew) "Orlando" 1992))
  /\ (List.length (snd (get_movie_data (service orlando_crew) "Orlando" 1992))
      <= List.length orlando_crew)%nat.
Proof.
  split.
  - exact (proj1 (fetch_genders (service orlando_crew) "Orlando" 1992)).
  - exact (proj2 (fetch_genders (service orlando_crew) "Orlando" 1992)
             (JArr [JObj [("id", JInt 550)]]) (JInt 550) orlando_crew
             eq_refl eq_refl eq_refl).
Defined.

(** X3.  A credits document that is an object without a "crew" field (the
    error document of the service, for one) is not a failure: the fetch
    returns the id found by the search, with no director. *)
Theorem credits_without_crew (client : AsyncClient) (name : string) (year : Z)
    (results movie_id : json) (fields : list (string * json))
    (Hsearch : search_results client name year = inr results)
    (Hsome : Py.truthy results = true)
    (Hid : first_id results = inr movie_id)
    (Hcredits : client (MovieCredits movie_id) = inr (Decoded (JObj fields)))
    (Hnocrew : Py.lookup "crew" fields = None) :
  get_movie_data client name year = (movie_id, []).
Proof.
  unfold get_movie_data. rewrite try_steps, Hsearch. simpl.
  rewrite Hsome. simpl. rewrite Hid. simpl.
  unfold credits_crew. rewrite Hcredits. simpl. now rewrite Hnocrew.
Qed.

(** X3, an instance: the credits request is answered "not found". *)
Lemma credits_without_crew_run :
  get_movie_data not_found "Orlando" 1992 = (JInt 550, []).
Proof.
  exact (credits_without_crew not_found "Orlando" 1992
           (JArr [JObj [("id", JInt 550)]]) (JInt 550)
           [("success", JBool false); ("status_code", JInt 34)]
           eq_refl eq_refl eq_refl eq_refl eq_refl).
Defined.

(** The fetch run with its requests recorded sends the requests of
    [requests_issued], after those already sent, and has the outcome of the
    [try] block. *)
Lemma sent_outcome (client : AsyncClient) (name : string) (year : Z)
    (sent : list request) :
  get_movie_data_sent client name year sent
  = ((sent ++ requests_issued client name year)%list,
     get_movie_data_try client name year).
Proof.
  unfold get_movie_data_sent, get_movie_data_try, requests_issued,
    search_results, first_id, send, local.
  simpl.
  destruct (client (SearchMovie name year)) as [e | search_res]; trivial.
  destruct (Response_json search_res) as [e | search_body]; simpl; trivial.
  destruct (Py.get search_body "results" JNull) as [e | results]; simpl; trivial.
  destruct (Py.truthy results); simpl; trivial.
  destruct (Py.item0 results) as [e | first]; simpl; trivial.
  destruct (Py.getitem first "id") as [e | movie_id]; simpl; trivial.
  rewrite <- app_assoc. simpl.
  destruct (client (MovieCredits movie_id)) as [e | credits_res]; trivial.
  destruct (Response_json credits_res) as [e | credits_body]; simpl; trivial.
  destruct (Py.get credits_body "crew" (JArr [])) as [e | crew]; simpl; trivial.
  destruct (Py.iter crew) as [e | ps]; simpl; trivial.
  now destruct (crew_directors ps).
Qed.

(** X4.  The body of the fetch, run with its requests recorded, has the
    outcome of the fetch; and when the search document has no usable result
    list (the field is absent or null, or the list is empty, or any other
    falsy value) it ends with [(None, [])] after the search alone: no
    credits request is sent. *)
Theorem no_results_no_credits (client : AsyncClient) (name : string) (year : Z) :
  snd (get_movie_data_sent client name year [])
  = get_movie_data_try client name year
  /\ forall results,
       search_results client name year = inr results ->
       Py.truthy results = false ->
       get_movie_data_sent client name year []
       = ([SearchMovie name year], inr (JNull, []))
       /\ get_movie_data client name year = (JNull, []).
Proof.
  split; [now rewrite sent_outcome|].
  intros results Hsearch Hnone. split.
  - rewrite sent_outcome, try_steps. unfold requests_issued.
    rewrite Hsearch. simpl. now rewrite Hnone.
  - now apply no_result_fetch with results.
Qed.

(** X4, an instance: a search document without the "results" field. *)
Lemma no_results_no_credits_run :
  get_movie_data_sent unauthorized "Orlando" 1992 []
  = ([SearchMovie "Orlando" 1992], inr (JNull, []))
  /\ get_movie_data unauthorized "Orlando" 1992 = (JNull, []).
Proof.
  exact (proj2 (no_results_no_credits unauthorized "Orlando" 1992)
           JNull eq_refl eq_refl).
Defined.

(** X5.  Only the first search result counts: with the same first result and
    the same answers to the credits requests, two services give the same
    fetch, whatever further results their searches list. *)
Theorem only_first_result_counts (client client' : AsyncClient)
    (name : string) (year : Z) (first : json) (others others' : list json)
    (Hsearch : search_results client name year = inr (JArr (first :: others)))
    (Hsearch' : search_results client' name year = inr (JArr (first :: others')))
    (Hcredits : forall movie_id,
        client' (MovieCredits movie_id) = client (MovieCredits movie_id)) :
  get_movie_data client' name year = get_movie_data client name year.
Proof.
  unfold get_movie_data. rewrite !try_steps, Hsearch, Hsearch'. simpl.
  unfold first_id. simpl.
  destruct (Py.getitem first "id") as [e | movie_id]; simpl; trivial.
  now rewrite (credits_crew_agree client client' movie_id (Hcredits movie_id)).
Qed.

(** X5, an instance: a second candidate after film 550. *)
Lemma only_first_result_counts_run :
  get_movie_data two_results "Orlando" 1992
  = get_movie_data (service orlando_crew) "Orlando" 1992.
Proof.
  exact (only_first_result_counts (service orlando_crew) two_results "Orlando" 1992
           (JObj [("id", JInt 550)]) [] [JObj [("id", JInt 9999)]]
           eq_refl eq_refl (fun _ => eq_refl)).
Defined.

End FetchAlone.

(** ** Failures of a fetch *)

Section Containment.

Lemma not_object_get (body : json) (key : string) (default : json) :
  is_object body = false -> Py.get body key default = inl AttributeError.
Proof. now destruct body. Qed.

Lemma get_raises_not_object (body : json) (key : string) (default : json) (e : exn) :
  Py.get body key default = inl e -> is_object body = false.
Proof.
  destruct body; simpl; trivial.
  destruct (Py.lookup key fields); discriminate.
Qed.

Ltac settle_raise :=
  split;
  [ (intros _; eexists; reflexivity) || discriminate
  | (intros _; reflexivity) || (intros (? & H); discriminate H) ].

Lemma no_first_id (results : json) :
  has_first_id results = false <-> exists e, first_id results = inl e.
Proof.
  unfold has_first_id, first_id.
  destruct results as [| b | n | q | s | items | fields]; simpl;
    try settle_raise.
  - destruct s; simpl; settle_raise.
  - destruct items as [|first others]; simpl; [settle_raise|].
    destruct first; simpl; try settle_raise.
    destruct (Py.lookup "id" fields); simpl; settle_raise.
Qed.

Lemma not_iterable (crew : json) :
  iterable crew = false <-> exists e, Py.iter crew = inl e.
Proof. destruct crew; simpl; settle_raise. Qed.

Lemma crew_directors_raises (entries : list json) (e : exn) :
  crew_directors entries = inl e ->
  Exists (fun p => crew_entry_ok p = false) entries.
Proof.
  induction entries as [|p entries IH]; simpl; [discriminate|].
  intros H.
  destruct (crew_entry_ok p) eqn:Hok; [right | now left].
  apply IH. revert H Hok. unfold crew_entry_ok, has, is_director_entry.
  destruct (Py.getitem p "job") as [e1 | job]; simpl; [discriminate|].
  destruct (Py.eq_str job "Director"); simpl; trivial.
  destruct (Py.getitem p "name") as [e2 | nm]; simpl; [discriminate|].
  destruct (Py.getitem p "gender") as [e3 | g]; simpl; [discriminate|].
  destruct (crew_directors entries) as [e4 | ds]; simpl; [|discriminate].
  now intros [= ->].
Qed.

Lemma credits_crew_raises (client : AsyncClient) (movie_id : json) (e : exn) :
  credits_crew client movie_id = inl e ->
  (exists e', client (MovieCredits movie_id) = inl e')
  \/ client (MovieCredits movie_id) = inr Undecodable
  \/ exists body, client (MovieCredits movie_id) = inr (Decoded body)
                  /\ is_object body = false.
Proof.
  unfold credits_crew.
  destruct (client (MovieCredits movie_id)) as [e' | [|body]]; simpl; eauto.
  intros H. right. right. exists body. split; trivial.
  now apply get_raises_not_object in H.
Qed.

Lemma step_raises_fetch_fails (client : AsyncClient) (name : string) (year : Z) :
  step_raises client name year -> fetch_fails client name year.
Proof.
  intros [e He | He | body He Hb | results Hr Ht Hid
          | results mid e Hr Ht Hid He | results mid Hr Ht Hid He
          | results mid body Hr Ht Hid He Hb | results mid crew Hr Ht Hid Hc Hi
          | results mid crew entries Hr Ht Hid Hc Hi Hbad].
  - now apply search_request_raises with e.
  - now apply search_body_undecodable.
  - apply search_fails with AttributeError. unfold search_results.
    rewrite He. simpl. now apply not_object_get.
  - apply no_first_id in Hid as (e & He).
    now apply first_id_fails with results e.
  - now apply credits_request_raises with results mid e.
  - now apply credits_body_undecodable with results mid.
  - apply credits_fail with results mid AttributeError; trivial.
    unfold credits_crew. rewrite He. simpl. now apply not_object_get.
  - apply not_iterable in Hi as (e & He).
    apply crew_fails with results mid crew e; trivial.
    unfold crew_list. now rewrite He.
  - destruct (crew_directors_bad entries Hbad) as (e & He).
    apply crew_fails with results mid crew e; trivial.
    unfold crew_list. rewrite Hi. exact He.
Qed.

Lemma fetch_fails_step_raises (client : AsyncClient) (name : string) (year : Z) :
  fetch_fails client name year -> step_raises client name year.
Proof.
  intros [e He | results e Hr Ht He | results mid e Hr Ht Hid He
          | results mid crew e Hr Ht Hid Hc He].
  - unfold search_results in He.
    destruct (client (SearchMovie name year)) as [e' | [|body]] eqn:Ec;
      simpl in He.
    + now apply raise_search_request with e'.
    + now apply raise_search_body.
    + apply raise_search_document with body; trivial.
      now apply get_raises_not_object in He.
  - apply raise_first_result with results; trivial.
    apply no_first_id. eauto.
  - destruct (credits_crew_raises client mid e He)
      as [(e' & Hc) | [Hc | (body & Hc & Hb)]].
    + now apply raise_credits_request with results mid e'.
    + now apply raise_credits_body with results mid.
    + now apply raise_credits_document with results mid body.
  - unfold crew_list in He.
    destruct (Py.iter crew) as [e' | entries] eqn:Hi; simpl in He.
    + apply raise_crew_iteration with results mid crew; trivial.
      apply not_iterable. eauto.
    + apply raise_crew_entry with results mid crew entries; trivial.
      now apply crew_directors_raises with e.
Qed.

Lemma fetch_agrees (client client' : AsyncClient) (name : string) (year : Z) :
  (forall req, In req (requests_issued client' name year) ->
               client req = client' req) ->
  get_movie_data client name year = get_movie_data client' name year.
Proof.
  intros Hsame.
  assert (Hs : search_results client name year = search_results client' name year).
  { apply search_results_agree, Hsame. unfold requests_issued. simpl. auto. }
  unfold get_movie_data, requests_issued in *.
  rewrite !try_steps, Hs.
  destruct (search_results client' name year) as [e | results]; simpl; auto.
  destruct (Py.truthy results); simpl; auto.
  destruct (first_id results) as [e | movie_id]; simpl; auto.
  rewrite (credits_crew_agree client' client movie_id); auto.
  apply Hsame. simpl. auto.
Qed.


End Containment.



(** ** The request handler beyond the claims *)

Section Handler.

Variable int_of_str : string -> option Z.
Variable to_numeric_str : string -> option Q.
Variable float_add : Q -> Q -> Q.
Variable float_div : Q -> Q -> Q.

#[local] Abbreviation py_int := (py_int int_of_str).
#[local] Abbreviation new_row := (new_row int_of_str).
#[local] Abbreviation new_rows := (new_rows int_of_str).
#[local] Abbreviation update_cache := (update_cache int_of_str).
#[local] Abbreviation to_numeric := (to_numeric to_numeric_str).
#[local] Abbreviation clean := (clean to_numeric_str).
#[local] Abbreviation load_and_clean := (load_and_clean to_numeric_str).
#[local] Abbreviation aggregate := (aggregate float_add float_div).
#[local] Abbreviation analyze_letterboxd :=
  (analyze_letterboxd int_of_str to_numeric_str float_add float_div).

Lemma new_rows_columns (rows : list User.row) :
  forall api_results rs,
    new_rows rows api_results = inr rs ->
    List.length api_results = List.length rows ->
    map Cache.URI rs = map User.Letterboxd_URI rows
    /\ map Cache.Directors rs = map snd api_results.
Proof.
  induction rows as [|row rows IH]; intros api_results rs; simpl.
  - intros [= <-]. destruct api_results; [auto | discriminate].
  - destruct api_results as [|[m_id ds] api_results]; [discriminate|].
    destruct (new_row row (m_id, ds)) as [e | r] eqn:Er; [discriminate|].
    destruct (new_rows rows api_results) as [e | rs'] eqn:Ers; [discriminate|].
    simpl. intros [= <-] [= Hlen]. simpl.
    apply new_row_inv in Er as (_ & _ & -> & -> & _).
    destruct (IH api_results rs' Ers Hlen) as (-> & ->). auto.
Qed.

Lemma gather_length (client : AsyncClient) (tasks : list (string * Z)) :
  List.length (gather client tasks) = List.length tasks.
Proof. unfold gather. apply length_map. Qed.

Lemma update_cache_inv (client : AsyncClient) (cache : list Cache.row)
    (df_user : list User.row) (cache' : list Cache.row) :
  snd (update_cache client cache df_user) = inr cache' ->
  exists appended,
    cache' = (cache ++ appended)%list
    /\ new_rows (to_fetch cache df_user)
                (gather client (tasks_of (to_fetch cache df_user))) = inr appended.
Proof.
  rewrite update_cache_eq. simpl.
  destruct (new_rows _ _) as [e | rs]; [discriminate|].
  intros [= <-]. now exists rs.
Qed.

(** X6.  In a run that reaches its write, the rows appended to the cache
    file are, one for one and in order, those of the fetches issued: each
    has the title and year of its fetch, the URI of the user record it was
    issued for and the directors the fetch returned. *)
Theorem appended_rows_match_fetches (client : AsyncClient)
    (cache cache' : list Cache.row) (upload : list Upload.row)
    (Hwritten : snd (update_cache client cache (load_and_clean upload)) = inr cache') :
  exists appended,
    cache_file (analyze_letterboxd client cache upload) = (cache ++ appended)%list
    /\ map cache_film appended = fetched (analyze_letterboxd client cache upload)
    /\ map Cache.URI appended
       = map User.Letterboxd_URI (to_fetch cache (load_and_clean upload))
    /\ map Cache.Directors appended
       = map snd (gather client (fetched (analyze_letterboxd client cache upload))).
Proof.
  destruct (update_cache_inv _ _ _ _ Hwritten) as (appended & -> & Hrows).
  exists appended. rewrite analyze_cache_file, Hwritten, analyze_fetched.
  split; [reflexivity|]. split; [now apply new_rows_films with (1 := Hrows)|].
  apply new_rows_columns with (1 := Hrows).
  unfold tasks_of. now rewrite gather_length, length_map.
Qed.

Lemma new_rows_raises (rows : list User.row) :
  forall api_results,
    List.length api_results = List.length rows ->
    Exists (fun res => Py.truthy (fst res) = true
                       /\ exists e, py_int (fst res) = inl e) api_results ->
    exists e, new_rows rows api_results = inl e.
Proof.
  induction rows as [|row rows IH]; intros api_results Hlen Hbad.
  - destruct api_results; [inversion Hbad | discriminate].
  - destruct api_results as [|[m_id ds] api_results]; [discriminate|].
    simpl. injection Hlen as Hlen.
    inversion Hbad as [? ? (Ht & e & He) | ? ? Hrest]; subst; simpl in *.
    + rewrite Ht, He. simpl. eauto.
    + destruct (IH api_results Hlen Hrest) as (e' & ->).
      destruct (Py.truthy m_id); [destruct (py_int m_id)|]; simpl; eauto.
Qed.

(** X7.  When one of the fetches of a run returns an id that is truthy and
    that [int] rejects (a text that is no number, a list, an object), the
    run ends with that exception after all its fetches were issued, and the
    cache file is left as it was: nothing is written for the other films
    either. *)
Theorem bad_id_aborts_run (client : AsyncClient) (cache : list Cache.row)
    (upload : list Upload.row)
    (Hbad : Exists (fun res => Py.truthy (fst res) = true
                              /\ exists e, py_int (fst res) = inl e)
                   (gather client (tasks_of (to_fetch cache (load_and_clean upload))))) :
  (exists e, returned (analyze_letterboxd client cache upload) = inl e)
  /\ cache_file (analyze_letterboxd client cache upload) = cache
  /\ fetched (analyze_letterboxd client cache upload)
     = tasks_of (to_fetch cache (load_and_clean upload)).
Proof.
  destruct (new_rows_raises (to_fetch cache (load_and_clean upload))
              (gather client (tasks_of (to_fetch cache (load_and_clean upload)))))
    as (e & He); trivial.
  { unfold tasks_of. now rewrite gather_length, length_map. }
  split; [|split].
  - exists e. unfold analyze_letterboxd. rewrite update_cache_eq, He. reflexivity.
  - rewrite analyze_cache_file, update_cache_eq. simpl. now rewrite He.
  - apply analyze_fetched.
Qed.

(** X8.  When the key of every cleaned user record is a key of the cache,
    the run sends nothing: it issues no fetch, leaves the cache file as it
    is and returns the same value whatever the service would answer. *)
Theorem cached_run_ignores_network (client client' : AsyncClient)
    (cache : list Cache.row) (upload : list Upload.row)
    (Hknown : forall row, In row (load_and_clean upload) ->
                          In (User.key row) (map Cache.key cache)) :
  analyze_letterboxd client cache upload = analyze_letterboxd client' cache upload
  /\ fetched (analyze_letterboxd client cache upload) = []
  /\ cache_file (analyze_letterboxd client cache upload) = cache.
Proof.
  assert (Hnil : to_fetch cache (load_and_clean upload) = []).
  { apply to_fetch_nil. intros row Hin. now apply known_mask_In, Hknown. }
  split; [|split].
  - unfold analyze_letterboxd, update_cache.
    now rewrite Hnil.
  - now rewrite analyze_fetched, Hnil.
  - rewrite analyze_cache_file, update_cache_eq, Hnil. simpl.
    apply app_nil_r.
Qed.

Lemma str_inj (a b : Z) : str a = str b -> a = b.
Proof.
  unfold str. intros H.
  assert (Hnz : forall z, Z.to_int z <> Decimal.Pos Decimal.Nil
                          /\ Z.to_int z <> Decimal.Neg Decimal.Nil).
  { intros [|p|p]; simpl; split; try discriminate;
      intros [= Hp]; now apply (DecimalPos.Unsigned.to_uint_nonnil p). }
  apply DecimalZ.to_int_inj.
  assert (Some (Z.to_int a) = Some (Z.to_int b)) as [= ->]; trivial.
  rewrite <- (NilZero.isi (Z.to_int a)), <- (NilZero.isi (Z.to_int b));
    try apply Hnz.
  now rewrite H.
Qed.

Lemma append_inv_head (s a b : string) : s ++ a = s ++ b -> a = b.
Proof.
  induction s as [|c s IH]; simpl; trivial.
  intros [= H]. now apply IH.
Qed.

Lemma same_film_key (u : User.row) (c : Cache.row) :
  same_film u c = true -> User.key u = Cache.key c.
Proof.
  intros H. apply same_film_eq in H as (Hn & Hy).
  unfold User.key, Cache.key. now rewrite Hn, Hy.
Qed.


Lemma known_mask_key (cache : list Cache.row) (u u' : User.row) :
  User.key u = User.key u' -> known_mask cache u = known_mask cache u'.
Proof. unfold known_mask. now intros ->. Qed.

Lemma appended_film_fetched (cache : list Cache.row) (df_user : list User.row)
    (api_results : list (json * list director)) (appended : list Cache.row)
    (c : Cache.row) :
  new_rows (to_fetch cache df_user) api_results = inr appended ->
  In c appended ->
  exists u, In u df_user /\ known_mask cache u = false /\ same_film u c = true.
Proof.
  intros Hrows Hc. apply new_rows_films in Hrows.
  apply (in_map (fun c => (Cache.Name c, Cache.Year c))) in Hc.
  rewrite Hrows in Hc.
  unfold tasks_of in Hc. apply in_map_iff in Hc as (u & Hfilm & Hu).
  apply to_fetch_In in Hu as (Hu & Hk).
  exists u. repeat split; trivial.
  apply same_film_eq. now injection Hfilm as -> ->.
Qed.

(** X10.  A user record that is known to the cache only through the key of
    another film (the two titles followed by their years read the same) is
    not fetched, and no row of the merged frame is about it: it is left out
    of every statistic. *)
Theorem collision_row_is_lost (client : AsyncClient) (cache cache' : list Cache.row)
    (upload : list Upload.row) (u : User.row)
    (Hin : In u (load_and_clean upload))
    (Hknown : known_mask cache u = true)
    (Hother : forall c, In c cache -> same_film u c = false)
    (Hwritten : snd (update_cache client cache (load_and_clean upload)) = inr cache') :
  ~ In (User.Name u, User.Year u) (fetched (analyze_letterboxd client cache upload))
  /\ forall row, In row (merge (load_and_clean upload) cache') ->
                 ~ (Merged.Name row = User.Name u /\ Merged.Year row = User.Year u).
Proof.
  split.
  - rewrite analyze_fetched. unfold tasks_of. intros H.
    apply in_map_iff in H as (u' & [= Hn Hy] & Hu').
    apply to_fetch_In in Hu' as (_ & Hk).
    rewrite (known_mask_key cache u u') in Hknown; [congruence|].
    unfold User.key. now rewrite Hn, Hy.
  - intros row Hrow (Hn & Hy).
    apply merge_In in Hrow as (u' & c & Hu' & Hc & Hsame & ->). simpl in Hn, Hy.
    assert (Hsame' : same_film u c = true).
    { apply same_film_eq. apply same_film_eq in Hsame as (H1 & H2). split; congruence. }
    destruct (update_cache_inv _ _ _ _ Hwritten) as (appended & -> & Hrows).
    apply in_app_or in Hc as [Hc | Hc].
    + rewrite (Hother c Hc) in Hsame'. discriminate.
    + destruct (appended_film_fetched _ _ _ _ _ Hrows Hc) as (u2 & _ & Hk2 & Hs2).
      rewrite (known_mask_key cache u u2) in Hknown; [congruence|].
      rewrite (same_film_key _ _ Hsame'). symmetry. now apply same_film_key.
Qed.


Lemma filter_all {A : Type} (f : A -> bool) (l : list A) :
  (forall x, In x l -> f x = true) -> filter f l = l.
Proof.
  induction l as [|x l IH]; simpl; intros H; trivial.
  rewrite (H x) by auto. f_equal. apply IH. auto.
Qed.

Lemma filter_none {A : Type} (f : A -> bool) (l : list A) :
  (forall x, In x l -> f x = false) -> filter f l = [].
Proof.
  induction l as [|x l IH]; simpl; intros H; trivial.
  rewrite (H x) by auto. apply IH. auto.
Qed.

Lemma length_flat_map_const {A B : Type} (f : A -> list B) (k : nat) (l : list A) :
  (forall x, In x l -> List.length (f x) = k) ->
  List.length (flat_map f l) = (List.length l * k)%nat.
Proof.
  induction l as [|x l IH]; simpl; intros H; trivial.
  rewrite length_app, (H x), IH by auto. lia.
Qed.

Lemma filter_within {A : Type} (p q : A -> bool) (l : list A) :
  (forall x, In x l -> p x = true -> q x = true) ->
  filter p (filter q l) = filter p l.
Proof.
  induction l as [|x l IH]; simpl; intros H; trivial.
  pose proof (H x (or_introl eq_refl)) as Hx.
  assert (IH' : filter p (filter q l) = filter p l) by (apply IH; auto).
  destruct (q x) eqn:Eq; simpl.
  - now rewrite IH'.
  - rewrite IH'. destruct (p x); trivial. now discriminate Hx.
Qed.

Lemma filter_flat_map {A B : Type} (p : B -> bool) (f : A -> list B) (l : list A) :
  filter p (flat_map f l) = flat_map (fun x => filter p (f x)) l.
Proof.
  induction l as [|x l IH]; simpl; trivial.
  now rewrite filter_app, IH.
Qed.

Lemma flat_map_filter {A B : Type} (q : A -> bool) (f : A -> list B) (l : list A) :
  flat_map (fun x => if q x then f x else []) l = flat_map f (filter q l).
Proof.
  induction l as [|x l IH]; simpl; trivial.
  rewrite IH. now destruct (q x).
Qed.

Lemma flat_map_agree {A B : Type} (f g : A -> list B) (l : list A) :
  (forall x, f x = g x) -> flat_map f l = flat_map g l.
Proof.
  intros H. induction l as [|x l IH]; simpl; trivial. now rewrite H, IH.
Qed.

Lemma user_about_eq (n : string) (y : Z) (u : User.row) :
  user_about n y u = true <-> User.Name u = n /\ User.Year u = y.
Proof.
  unfold user_about. now rewrite andb_true_iff, String.eqb_eq, Z.eqb_eq.
Qed.

Lemma cache_about_eq (n : string) (y : Z) (c : Cache.row) :
  cache_about n y c = true <-> Cache.Name c = n /\ Cache.Year c = y.
Proof.
  unfold cache_about. now rewrite andb_true_iff, String.eqb_eq, Z.eqb_eq.
Qed.

Lemma count_user_about (n : string) (y : Z) (rows : list User.row) :
  count_occ film_eq_dec (tasks_of rows) (n, y)
  = List.length (filter (user_about n y) rows).
Proof.
  induction rows as [|u rows IH]; [reflexivity|].
  change (tasks_of (u :: rows))
    with ((User.Name u, User.Year u) :: tasks_of rows).
  cbn [filter].
  destruct (film_eq_dec (User.Name u, User.Year u) (n, y)) as [E | E].
  - rewrite (count_occ_cons_eq _ _ E).
    assert (Hu : user_about n y u = true)
      by (apply user_about_eq; injection E; auto).
    rewrite Hu. cbn [List.length]. now rewrite IH.
  - rewrite (count_occ_cons_neq _ _ E).
    assert (Hu : user_about n y u = false).
    { destruct (user_about n y u) eqn:X; trivial.
      apply user_about_eq in X as (Hn & Hy). congruence. }
    now rewrite Hu.
Qed.

Lemma count_cache_about (n : string) (y : Z) (rows : list Cache.row) :
  count_occ film_eq_dec (map (fun c => (Cache.Name c, Cache.Year c)) rows) (n, y)
  = List.length (filter (cache_about n y) rows).
Proof.
  induction rows as [|c rows IH]; [reflexivity|].
  cbn [map filter].
  destruct (film_eq_dec (Cache.Name c, Cache.Year c) (n, y)) as [E | E].
  - rewrite (count_occ_cons_eq _ _ E).
    assert (Hc : cache_about n y c = true)
      by (apply cache_about_eq; injection E; auto).
    rewrite Hc. cbn [List.length]. now rewrite IH.
  - rewrite (count_occ_cons_neq _ _ E).
    assert (Hc : cache_about n y c = false).
    { destruct (cache_about n y c) eqn:X; trivial.
      apply cache_about_eq in X as (Hn & Hy). congruence. }
    now rewrite Hc.
Qed.

Lemma same_film_about (n : string) (y : Z) (u : User.row) (c : Cache.row) :
  user_about n y u = true -> same_film u c = cache_about n y c.
Proof.
  intros Hu. apply user_about_eq in Hu as (Hn & Hy).
  apply eq_true_iff_eq.
  rewrite same_film_eq, cache_about_eq. now rewrite Hn, Hy.
Qed.


(** X13.  The cleaned frame holds, in upload order, exactly the uploaded rows
    that have a name and a rating that reads as a number, with that name and
    number and with their year and URI unchanged; it is never longer than the
    upload. *)
Theorem clean_rows_kept (upload : list Upload.row) :
  (forall u,
      In u (load_and_clean upload) <->
      exists r, In r upload
                /\ Upload.Name r = Some (User.Name u)
                /\ to_numeric (Upload.Rating r) = Some (User.Rating u)
                /\ Upload.Year r = User.Year u
                /\ Upload.Letterboxd_URI r = User.Letterboxd_URI u)
  /\ (List.length (load_and_clean upload) <= List.length upload)%nat
  /\ forall before after,
       upload = (before ++ after)%list ->
       load_and_clean upload = (load_and_clean before ++ load_and_clean after)%list.
Proof.
  split; [|split].
  - intros u. unfold load_and_clean. rewrite in_flat_map. split.
    + intros (r & Hr & Hu). exists r. split; trivial.
      unfold clean in Hu.
      destruct (Upload.Name r) as [nm|]; [|contradiction].
      destruct (to_numeric (Upload.Rating r)) as [q|]; [|contradiction].
      destruct Hu as [<- | []]. simpl. auto.
    + intros (r & Hr & Hn & Hq & Hy & Hu). exists r. split; trivial.
      unfold clean. rewrite Hn, Hq. left. destruct u; simpl in *. congruence.
  - unfold load_and_clean.
    induction upload as [|r upload IH]; simpl; [lia|].
    rewrite length_app. destruct (clean r); simpl; lia.
  - intros before after ->. apply load_and_clean_app.
Qed.

(** X14.  If every director in the cache file has the gender "Female" or
    "Other", so has every director in the cache file a run leaves: the rows
    a run appends carry only the two genders the fetcher writes. *)
Theorem cache_genders_kept (client : AsyncClient) (cache : list Cache.row)
    (upload : list Upload.row)
    (Hcache : forall c, In c cache -> Forall gender_written (Cache.Directors c)) :
  forall c, In c (cache_file (analyze_letterboxd client cache upload)) ->
            Forall gender_written (Cache.Directors c).
Proof.
  intros c. rewrite analyze_cache_file.
  destruct (snd (update_cache client cache (load_and_clean upload)))
    as [e | cache'] eqn:Hw; [apply Hcache|].
  destruct (update_cache_inv _ _ _ _ Hw) as (appended & -> & Hrows).
  intros Hc. apply in_app_or in Hc as [Hc | Hc]; [now apply Hcache|].
  apply new_rows_columns in Hrows as (_ & Hds).
  - apply (in_map Cache.Directors) in Hc. rewrite Hds in Hc.
    unfold gather in Hc. rewrite map_map in Hc.
    apply in_map_iff in Hc as (t & <- & _).
    apply get_movie_data_genders.
  - unfold tasks_of. now rewrite gather_length, length_map.
Qed.

End Handler.

Section HandlerRuns.

#[local] Abbreviation run_of := (analyze_letterboxd decimal decimal_rating Qplus Qdiv).

(** X6, an instance: Orlando is fetched and appended after the Apollo entry. *)
Lemma appended_rows_match_fetches_run :
  exists appended,
    cache_file (run_of (service orlando_crew) [apollo_entry]
                  [rated "Orlando" 1992 (9 # 2)])
    = ([apollo_entry] ++ appended)%list
    /\ map cache_film appended
       = fetched (run_of (service orlando_crew) [apollo_entry]
                    [rated "Orlando" 1992 (9 # 2)])
    /\ map Cache.URI appended
       = map User.Letterboxd_URI
           (to_fetch [apollo_entry]
              (load_and_clean decimal_rating [rated "Orlando" 1992 (9 # 2)]))
    /\ map Cache.Directors appended
       = map snd (gather (service orlando_crew)
                    (fetched (run_of (service orlando_crew) [apollo_entry]
                                [rated "Orlando" 1992 (9 # 2)]))).
Proof.
  apply (appended_rows_match_fetches decimal decimal_rating Qplus Qdiv
           (service orlando_crew) [apollo_entry]
           ([apollo_entry] ++ [orlando_entry (Some 550) orlando_directors])
           [rated "Orlando" 1992 (9 # 2)]).
  reflexivity.
Defined.

(** X7, an instance: the id of the second film is a text; both films are
    fetched and the entry of the first one is not written either. *)
Lemma bad_id_aborts_run_run :
  returned (run_of text_id [apollo_entry]
              [rated "Orlando" 1992 (9 # 2); rated "Jeanne Dielman" 1975 5])
  = inl ValueError
  /\ (exists e, returned (run_of text_id [apollo_entry]
                 [rated "Orlando" 1992 (9 # 2); rated "Jeanne Dielman" 1975 5])
              = inl e)
  /\ cache_file (run_of text_id [apollo_entry]
                   [rated "Orlando" 1992 (9 # 2); rated "Jeanne Dielman" 1975 5])
     = [apollo_entry]
  /\ fetched (run_of text_id [apollo_entry]
                [rated "Orlando" 1992 (9 # 2); rated "Jeanne Dielman" 1975 5])
     = tasks_of (to_fetch [apollo_entry]
                   (load_and_clean decimal_rating
                      [rated "Orlando" 1992 (9 # 2); rated "Jeanne Dielman" 1975 5])).
Proof.
  split; [reflexivity|].
  apply (bad_id_aborts_run decimal decimal_rating Qplus Qdiv text_id [apollo_entry]
           [rated "Orlando" 1992 (9 # 2); rated "Jeanne Dielman" 1975 5]).
  apply Exists_cons_tl, Exists_cons_hd. split; [reflexivity|].
  exists ValueError. reflexivity.
Defined.

(** X8, an instance: Orlando is in the cache; with or without a connection
    the run is the same. *)
Lemma cached_run_ignores_network_run :
  run_of offline [orlando_entry None [potter]] [rated "Orlando" 1992 (9 # 2)]
  = run_of (service orlando_crew) [orlando_entry None [potter]]
      [rated "Orlando" 1992 (9 # 2)]
  /\ fetched (run_of offline [orlando_entry None [potter]]
                [rated "Orlando" 1992 (9 # 2)]) = []
  /\ cache_file (run_of offline [orlando_entry None [potter]]
                   [rated "Orlando" 1992 (9 # 2)])
     = [orlando_entry None [potter]].
Proof.
  apply (cached_run_ignores_network decimal decimal_rating Qplus Qdiv offline
           (service orlando_crew) [orlando_entry None [potter]]
           [rated "Orlando" 1992 (9 # 2)]).
  intros row [<- | []]. left. reflexivity.
Defined.


(** X10, an instance: "Apollo 11" of 995 against a cache that has "Apollo 1"
    of 1995. *)
Lemma collision_row_is_lost_run :
  ~ In (User.Name apollo_11, User.Year apollo_11)
       (fetched (run_of (service orlando_crew) [apollo_entry] [rated "Apollo 11" 995 3]))
  /\ forall row,
       In row (merge (load_and_clean decimal_rating [rated "Apollo 11" 995 3])
                     [apollo_entry]) ->
       ~ (Merged.Name row = User.Name apollo_11
          /\ Merged.Year row = User.Year apollo_11).
Proof.
  apply (collision_row_is_lost decimal decimal_rating Qplus Qdiv (service orlando_crew)
           [apollo_entry] [apollo_entry] [rated "Apollo 11" 995 3] apollo_11).
  - left. reflexivity.
  - reflexivity.
  - intros c [<- | []]. reflexivity.
  - reflexivity.
Defined.



(** X13, an instance: a rated row followed by an unrated one. *)
Lemma clean_rows_kept_run :
  load_and_clean decimal_rating [rated "Orlando" 1992 (9 # 2); unrated]
  = (load_and_clean decimal_rating [rated "Orlando" 1992 (9 # 2)]
     ++ load_and_clean decimal_rating [unrated])%list.
Proof.
  exact (proj2 (proj2 (clean_rows_kept decimal_rating
                         [rated "Orlando" 1992 (9 # 2); unrated]))
           [rated "Orlando" 1992 (9 # 2)] [unrated] eq_refl).
Defined.

(** X14, an instance: a cache with Orlando, a run that fetches a second
    film. *)
Lemma cache_genders_kept_run :
  Forall (fun c => Forall gender_written (Cache.Directors c))
         (cache_file (run_of (service orlando_crew) [orlando_entry None [potter]]
                        [rated "Jeanne Dielman" 1975 5])).
Proof.
  apply Forall_forall.
  apply (cache_genders_kept decimal decimal_rating Qplus Qdiv (service orlando_crew)
           [orlando_entry None [potter]] [rated "Jeanne Dielman" 1975 5]).
  intros c [<- | []]. repeat constructor.
Defined.

End HandlerRuns.

(** ** The statistics beyond the claims *)

Section Statistics.

Lemma filter_split_length {A : Type} (f : A -> bool) (l : list A) :
  (List.length (filter f l) + List.length (filter (fun x => negb (f x)) l)
   = List.length l)%nat.
Proof.
  induction l as [|x l IH]; simpl; trivial.
  destruct (f x); simpl; lia.
Qed.

Lemma bucket_rating_source (merged : list Merged.row) (q : Q)
    (pick : Merged.row -> list director) :
  In q (flat_map (fun row => rating_per row (pick row)) merged) ->
  exists row, In row merged /\ pick row <> [] /\ Merged.Rating row = q.
Proof.
  rewrite in_flat_map. intros (row & Hrow & Hq).
  unfold rating_per in Hq. apply in_map_iff in Hq as (d & <- & Hd).
  exists row. repeat split; trivial. intros E. now rewrite E in Hd.
Qed.

(** X15.  The loop puts every director of every merged row in exactly one
    bucket: the two buckets together have as many ratings as the merged rows
    have directors, the tally list has one name per rating of the female
    bucket, and every rating in a bucket is the rating of a merged row. *)
Theorem every_director_is_bucketed (merged : list Merged.row) :
  (List.length (female_ratings (tally merged))
   + List.length (other_ratings (tally merged))
   = List.length (flat_map Merged.Directors merged))%nat
  /\ List.length (female_director_list (tally merged))
     = List.length (female_ratings (tally merged))
  /\ forall q,
       In q (female_ratings (tally merged) ++ other_ratings (tally merged)) ->
       exists row, In row merged /\ Merged.Rating row = q.
Proof.
  rewrite tally_closed. simpl. split; [|split].
  - induction merged as [|row merged IH]; simpl; trivial.
    rewrite !length_app, <- IH. unfold rating_per, women, others.
    rewrite !length_map.
    pose proof (filter_split_length is_female (Merged.Directors row)). lia.
  - induction merged as [|row merged IH]; simpl; trivial.
    rewrite !length_app, IH. unfold rating_per. now rewrite !length_map.
  - intros q Hq. apply in_app_or in Hq as [Hq | Hq];
      apply bucket_rating_source in Hq as (row & Hrow & _ & Hr); eauto.
Qed.

Lemma best_df_nonempty (merged : list Merged.row) (first : Merged.row)
    (rest : list Merged.row) :
  female_directed_df merged = first :: rest -> best_df merged <> [].
Proof.
  intros Hfd. unfold best_df. rewrite Hfd.
  destruct (max_rating_attained first rest) as (row & Hrow & Hmax).
  assert (Hin : In row (filter (fun r => Qeq_bool (Merged.Rating r)
                                            (max_rating first rest))
                               (first :: rest))).
  { apply filter_In. split; trivial. apply Qeq_bool_iff. now rewrite Hmax. }
  intros E. now rewrite E in Hin.
Qed.

Lemma female_directed_df_nil (merged : list Merged.row) :
  female_directed_df merged = [] <->
  forall row, In row merged -> female_directed row = false.
Proof.
  split.
  - intros E row Hrow. destruct (female_directed row) eqn:Hf; trivial.
    assert (H : In row (female_directed_df merged))
      by now apply female_directed_df_In.
    now rewrite E in H.
  - intros H. apply filter_none. exact H.
Qed.

Lemma top_female_picks_nil (merged : list Merged.row) :
  top_female_picks merged = [] <->
  forall row, In row merged -> female_directed row = false.
Proof.
  rewrite <- female_directed_df_nil, top_female_picks_best.
  destruct (female_directed_df merged) as [|first rest] eqn:Hfd.
  - unfold best_df. rewrite Hfd. simpl. tauto.
  - pose proof (best_df_nonempty merged first rest Hfd) as Hne.
    split; [|discriminate].
    intros E. apply map_eq_nil in E. contradiction.
Qed.

Lemma pick_is_top (merged : list Merged.row) (p : Pick.row) :
  In p (top_female_picks merged) ->
  exists row, is_top_pick merged row /\ Pick.Rating p = Merged.Rating row.
Proof.
  rewrite top_female_picks_best. intros Hp.
  apply in_map_iff in Hp as (row & <- & Hrow).
  exists row. split; [now apply best_df_top_pick | reflexivity].
Qed.

(** X17.  The list of picks is empty exactly when no merged row has a Female
    director; otherwise every pick is rated at least as high as every merged
    row with a Female director, and all picks have the same rating. *)
Theorem picks_share_the_top_rating (merged : list Merged.row) :
  (top_female_picks merged = [] <->
   forall row, In row merged -> female_directed row = false)
  /\ (forall p row,
        In p (top_female_picks merged) -> In row merged ->
        female_directed row = true ->
        (Merged.Rating row <= Pick.Rating p)%Q)
  /\ (forall p p',
        In p (top_female_picks merged) -> In p' (top_female_picks merged) ->
        (Pick.Rating p == Pick.Rating p')%Q).
Proof.
  split; [apply top_female_picks_nil|]. split.
  - intros p row Hp Hrow Hf.
    apply pick_is_top in Hp as (top & (_ & _ & Hall) & ->). now apply Hall.
  - intros p p' Hp Hp'.
    apply pick_is_top in Hp as (top & (Hin & Hf & Hall) & ->).
    apply pick_is_top in Hp' as (top' & (Hin' & Hf' & Hall') & ->).
    apply Qle_antisym; auto.
Qed.

(** X15, an instance: the rating 5 in the buckets of the three rows. *)
Lemma every_director_is_bucketed_run :
  exists row, In row three_rows /\ Merged.Rating row = 5%Q.
Proof.
  apply (proj2 (proj2 (every_director_is_bucketed three_rows)) 5%Q).
  right. left. reflexivity.
Defined.

(** X17, an instance: of three rows the one rated 5 is the pick. *)
Lemma picks_share_the_top_rating_run :
  (Merged.Rating orlando_merged <= Pick.Rating (to_pick vagabond_merged))%Q
  /\ (Pick.Rating (to_pick vagabond_merged) == Pick.Rating (to_pick vagabond_merged))%Q.
Proof.
  assert (Hp : In (to_pick vagabond_merged) (top_female_picks three_rows))
    by (left; reflexivity).
  split.
  - apply (proj1 (proj2 (picks_share_the_top_rating three_rows))
             (to_pick vagabond_merged) orlando_merged Hp).
    + left. reflexivity.
    + reflexivity.
  - exact (proj2 (proj2 (picks_share_the_top_rating three_rows))
             (to_pick vagabond_merged) (to_pick vagabond_merged) Hp Hp).
Defined.

End Statistics.

(** ** The most watched director *)

Section MostWatched.

Variable float_add : Q -> Q -> Q.
Variable float_div : Q -> Q -> Q.

#[local] Abbreviation aggregate := (aggregate float_add float_div).

Lemma Qeq_bool_sym (x y : Q) : Qeq_bool x y = Qeq_bool y x.
Proof.
  destruct (Qeq_bool x y) eqn:E1, (Qeq_bool y x) eqn:E2; trivial.
  - apply Qeq_bool_iff in E1. symmetry in E1. apply Qeq_bool_iff in E1. congruence.
  - apply Qeq_bool_iff in E2. symmetry in E2. apply Qeq_bool_iff in E2. congruence.
Qed.

Lemma Qeq_bool_trans (x y z : Q) :
  Qeq_bool x y = true -> Qeq_bool y z = true -> Qeq_bool x z = true.
Proof.
  rewrite !Qeq_bool_iff. apply Qeq_trans.
Qed.

Lemma eqb_sym (a b : json) : Counter.eqb a b = Counter.eqb b a.
Proof.
  destruct a, b; simpl; trivial;
    try apply Qeq_bool_sym; apply String.eqb_sym.
Qed.

Lemma eqb_trans (a b c : json) :
  Counter.eqb a b = true -> Counter.eqb b c = true -> Counter.eqb a c = true.
Proof.
  destruct a, b; simpl; try discriminate; intros Hab;
    destruct c; simpl; try discriminate; intros Hbc; trivial;
    try (eapply Qeq_bool_trans; eassumption).
  apply String.eqb_eq in Hab, Hbc. subst. apply String.eqb_refl.
Qed.

Lemma eqb_refl (x : json) : Counter.hashable x = true -> Counter.eqb x x = true.
Proof.
  destruct x; simpl; try discriminate; intros _; trivial;
    try (apply Qeq_bool_iff; reflexivity).
  apply String.eqb_refl.
Qed.

Lemma count_for_add (x y : json) (counts : list (json * nat)) :
  count_for y (Counter.add x counts)
  = if Counter.eqb x y then S (count_for y counts) else count_for y counts.
Proof.
  induction counts as [|[k n] rest IH]; simpl.
  - now destruct (Counter.eqb x y).
  - destruct (Counter.eqb k x) eqn:Ekx; simpl.
    + destruct (Counter.eqb k y) eqn:Eky.
      * rewrite (eqb_trans x k y); trivial. now rewrite eqb_sym.
      * destruct (Counter.eqb x y) eqn:Exy; trivial.
        rewrite (eqb_trans k x y) in Eky; trivial. discriminate.
    + rewrite IH. destruct (Counter.eqb k y) eqn:Eky; trivial.
      destruct (Counter.eqb x y) eqn:Exy; trivial.
      rewrite (eqb_trans k y x) in Ekx; trivial; [discriminate|].
      now rewrite eqb_sym.
Qed.

Lemma count_for_fold (y : json) (items : list json) :
  forall counts,
    count_for y (fold_left (fun c x => Counter.add x c) items counts)
    = (count_for y counts + occurrences y items)%nat.
Proof.
  unfold occurrences.
  induction items as [|x items IH]; intros counts; simpl; [lia|].
  rewrite IH, count_for_add, (eqb_sym y x).
  destruct (Counter.eqb x y); simpl; lia.
Qed.

Lemma in_add (x : json) (counts : list (json * nat)) (k : json) (n : nat) :
  In (k, n) (Counter.add x counts) -> k = x \/ exists m, In (k, m) counts.
Proof.
  induction counts as [|[k0 n0] rest IH]; simpl.
  - intros [[= <- <-] | []]. now left.
  - destruct (Counter.eqb k0 x); simpl.
    + intros [[= <- <-] | H]; right; eauto.
    + intros [[= <- <-] | H]; [right; eauto|].
      destruct (IH H) as [-> | (m & Hm)]; [now left | right; eauto].
Qed.

Lemma add_keeps_distinct (x : json) (counts : list (json * nat)) :
  keys_distinct counts -> keys_distinct (Counter.add x counts).
Proof.
  induction counts as [|[k n] rest IH]; simpl.
  - intros _. split; [intros k' n' []|exact I].
  - intros (Hk & Hrest). destruct (Counter.eqb k x) eqn:Ekx; simpl.
    + split; trivial.
    + split; [|now apply IH].
      intros k' n' Hin. apply in_add in Hin as [-> | (m & Hm)]; trivial.
      now apply Hk with m.
Qed.

Lemma fold_add_invariant (items : list json) :
  forall counts,
    keys_distinct counts ->
    (forall k n, In (k, n) counts -> Counter.eqb k k = true) ->
    Forall (fun x => Counter.hashable x = true) items ->
    let counts' := fold_left (fun c x => Counter.add x c) items counts in
    keys_distinct counts'
    /\ (forall k n, In (k, n) counts' -> Counter.eqb k k = true)
    /\ (forall k n, In (k, n) counts' -> In k items \/ exists m, In (k, m) counts).
Proof.
  induction items as [|x items IH]; intros counts Hd Hr Hh; simpl.
  - repeat split; trivial. intros k n H. right. eauto.
  - inversion Hh as [|? ? Hx Hrest]; subst.
    destruct (IH (Counter.add x counts)) as (Hd' & Hr' & Hk'); trivial.
    + now apply add_keeps_distinct.
    + intros k n Hin. apply in_add in Hin as [-> | (m & Hm)].
      * now apply eqb_refl.
      * now apply Hr with m.
    + repeat split; trivial.
      intros k n Hin. destruct (Hk' k n Hin) as [H | (m & Hm)]; [auto|].
      apply in_add in Hm as [-> | Hm]; auto.
Qed.

Lemma count_for_in (counts : list (json * nat)) (k : json) (n : nat) :
  keys_distinct counts -> In (k, n) counts -> Counter.eqb k k = true ->
  count_for k counts = n.
Proof.
  induction counts as [|[k0 n0] rest IH]; simpl; [contradiction|].
  intros (Hk & Hrest) [[= -> ->] | Hin] Hrefl.
  - now rewrite Hrefl.
  - rewrite (Hk k n Hin). now apply IH.
Qed.

Lemma count_for_le (counts : list (json * nat)) (y : json) (n : nat) :
  (forall k' n', In (k', n') counts -> (n' <= n)%nat) ->
  (count_for y counts <= n)%nat.
Proof.
  induction counts as [|[k0 n0] rest IH]; simpl; intros H; [lia|].
  destruct (Counter.eqb k0 y); [apply (H k0 n0); auto|].
  apply IH. intros k' n' Hin. apply (H k' n'). auto.
Qed.

Lemma most_common1_max (counts : list (json * nat)) (k : json) (n : nat) :
  Counter.most_common1 counts = Some (k, n) ->
  In (k, n) counts /\ forall k' n', In (k', n') counts -> (n' <= n)%nat.
Proof.
  revert k n. induction counts as [|[k0 n0] rest IH]; simpl; [discriminate|].
  intros k n.
  destruct (Counter.most_common1 rest) as [[k1 n1]|] eqn:Erest.
  - destruct (IH k1 n1 eq_refl) as (Hin & Hmax).
    destruct (n0 <? n1)%nat eqn:Elt; intros [= <- <-].
    + apply Nat.ltb_lt in Elt. split; [auto|].
      intros k' n' [[= <- <-] | H]; [lia | now apply Hmax with k'].
    + apply Nat.ltb_ge in Elt. split; [auto|].
      intros k' n' [[= <- <-] | H]; [lia|].
      specialize (Hmax k' n' H). lia.
  - intros [= <- <-]. split; [auto|].
    destruct rest as [|[k2 n2] rest']; [|simpl in Erest].
    + intros k' n' [[= <- <-] | []]. lia.
    + destruct (Counter.most_common1 rest') as [[k3 n3]|];
        [destruct (n2 <? n3)%nat|]; discriminate.
Qed.

Lemma of_list_acc (items : list json) :
  forall acc counts,
    fold_left
      (fun acc x =>
         counts <- acc ;;
         if Counter.hashable x then ret (Counter.add x counts) else raise TypeError)
      items acc
    = inr counts ->
    exists counts0,
      acc = inr counts0
      /\ Forall (fun x => Counter.hashable x = true) items
      /\ counts = fold_left (fun c x => Counter.add x c) items counts0.
Proof.
  induction items as [|x items IH]; intros acc counts; simpl.
  - intros ->. exists counts. auto.
  - intros H. apply IH in H as (counts1 & Hacc & Hall & ->).
    destruct acc as [e | counts0]; simpl in Hacc; [discriminate|].
    destruct (Counter.hashable x) eqn:Hx; simpl in Hacc; [|discriminate].
    injection Hacc as <-. exists counts0. auto.
Qed.

Lemma of_list_inv (items : list json) (counts : list (json * nat)) :
  Counter.of_list items = inr counts ->
  Forall (fun x => Counter.hashable x = true) items
  /\ counts = fold_left (fun c x => Counter.add x c) items [].
Proof.
  intros H. apply of_list_acc in H as (counts0 & [= <-] & Hall & ->). auto.
Qed.

Lemma top_director_data_inv (names : list json) (top : option (json * nat)) :
  top_director_data names = inr top ->
  Forall (fun x => Counter.hashable x = true) names
  /\ top = Counter.most_common1 (fold_left (fun c x => Counter.add x c) names []).
Proof.
  unfold top_director_data.
  destruct (Counter.of_list names) as [e | counts] eqn:E; simpl; [discriminate|].
  intros [= <-]. apply of_list_inv in E as (Hall & ->). auto.
Qed.

Lemma top_director_counts (names : list json) (k : json) (n : nat) :
  top_director_data names = inr (Some (k, n)) ->
  In k names
  /\ n = occurrences k names
  /\ forall y, In y names -> (occurrences y names <= n)%nat.
Proof.
  intros H. apply top_director_data_inv in H as (Hall & Htop).
  symmetry in Htop. apply most_common1_max in Htop as (Hin & Hmax).
  destruct (fold_add_invariant names [] I) with (2 := Hall)
    as (Hd & Hr & Hk); [intros ? ? []|].
  split; [|split].
  - destruct (Hk k n Hin) as [H | (m & [])]; trivial.
  - rewrite <- (count_for_in _ k n Hd Hin (Hr k n Hin)).
    now rewrite count_for_fold.
  - intros y Hy.
    pose proof (count_for_fold y names []) as Hc. simpl in Hc. rewrite <- Hc.
    now apply count_for_le.
Qed.

(** X19.  When the handler returns a most watched director, the name is one
    of the tally list, the watch count is the number of entries of the tally
    list equal to it (one per merged row and Female director of that name),
    and no name of the tally list has more entries. *)
Theorem most_watched_has_most_pairs (merged : list Merged.row) (a : analysis)
    (k : json) (n : nat)
    (Hret : aggregate merged = inr a)
    (Htop : most_watched_female_director (stats_of a) = Some (k, n)) :
  In k (female_director_list (tally merged))
  /\ n = occurrences k (female_director_list (tally merged))
  /\ forall y, In y (female_director_list (tally merged)) ->
               (occurrences y (female_director_list (tally merged)) <= n)%nat.
Proof.
  apply aggregate_inv in Hret as (top & Hdata & ->). simpl in Htop. subst top.
  now apply top_director_counts.
Qed.

Lemma add_nonempty (x : json) (counts : list (json * nat)) :
  Counter.add x counts <> [].
Proof.
  destruct counts as [|[k n] rest]; simpl; [discriminate|].
  destruct (Counter.eqb k x); discriminate.
Qed.

Lemma fold_add_nonempty (items : list json) :
  forall counts, counts <> [] ->
                 fold_left (fun c x => Counter.add x c) items counts <> [].
Proof.
  induction items as [|x items IH]; intros counts H; simpl; trivial.
  apply IH, add_nonempty.
Qed.

Lemma most_common1_none (counts : list (json * nat)) :
  Counter.most_common1 counts = None <-> counts = [].
Proof.
  split; [|now intros ->].
  destruct counts as [|[k n] rest]; simpl; trivial.
  destruct (Counter.most_common1 rest) as [[k1 n1]|];
    [destruct (n <? n1)%nat|]; discriminate.
Qed.

Lemma no_top_director (names : list json) :
  top_director_data names = inr None <-> names = [].
Proof.
  split.
  - intros H. apply top_director_data_inv in H as (_ & Htop).
    symmetry in Htop. apply most_common1_none in Htop.
    destruct names as [|x names]; trivial. simpl in Htop.
    now apply fold_add_nonempty in Htop.
  - now intros ->.
Qed.

Lemma flat_map_nil {A B : Type} (f : A -> list B) (l : list A) :
  flat_map f l = [] <-> forall x, In x l -> f x = [].
Proof.
  induction l as [|x l IH]; simpl.
  - split; [intros _ ? [] | trivial].
  - split.
    + intros H. apply app_eq_nil in H as (Hx & Hl).
      intros y [<- | Hy]; trivial. now apply IH.
    + intros H. rewrite (H x) by auto. simpl. apply IH. auto.
Qed.

Lemma women_nil (row : Merged.row) :
  women row = [] <-> female_directed row = false.
Proof.
  unfold women, female_directed. split.
  - intros E. destruct (existsb is_female (Merged.Directors row)) eqn:Ex; trivial.
    apply existsb_exists in Ex as (d & Hd & Hf).
    assert (H : In d (filter is_female (Merged.Directors row)))
      by now apply filter_In.
    now rewrite E in H.
  - intros Ex. apply filter_none. intros d Hd.
    destruct (is_female d) eqn:Hf; trivial.
    assert (existsb is_female (Merged.Directors row) = true)
      by (apply existsb_exists; eauto).
    congruence.
Qed.

Lemma no_woman_tallies (merged : list Merged.row) :
  (forall row, In row merged -> female_directed row = false) <->
  female_director_list (tally merged) = [].
Proof.
  rewrite tally_closed. simpl. rewrite flat_map_nil. split.
  - intros H row Hrow. specialize (H row Hrow).
    apply women_nil in H. now rewrite H.
  - intros H row Hrow. apply women_nil.
    specialize (H row Hrow). now apply map_eq_nil in H.
Qed.

Lemma no_woman_ratings (merged : list Merged.row) :
  (forall row, In row merged -> female_directed row = false) ->
  female_ratings (tally merged) = [].
Proof.
  rewrite tally_closed. simpl. intros H. apply flat_map_nil.
  intros row Hrow. specialize (H row Hrow). apply women_nil in H.
  unfold rating_per. now rewrite H.
Qed.

(** X20.  The parts of the returned document agree on whether there is a
    Female director at all: there is no most watched director exactly when
    the list of picks is empty, which is when no merged row has a Female
    director, and [female_avg] is then 0. *)
Theorem no_woman_no_output (merged : list Merged.row) (a : analysis)
    (Hret : aggregate merged = inr a) :
  (most_watched_female_director (stats_of a) = None <->
   best_rated_female_directed a = [])
  /\ (best_rated_female_directed a = [] <->
      forall row, In row merged -> female_directed row = false)
  /\ (best_rated_female_directed a = [] -> female_avg (stats_of a) = 0%Q).
Proof.
  apply aggregate_inv in Hret as (top & Hdata & ->). simpl.
  split; [|split].
  - rewrite top_female_picks_nil, no_woman_tallies. split.
    + intros ->. now apply no_top_director.
    + intros E. rewrite E in Hdata. simpl in Hdata. now injection Hdata as <-.
  - apply top_female_picks_nil.
  - intros E.
    now rewrite (no_woman_ratings merged (proj1 (top_female_picks_nil merged) E)).
Qed.

Lemma of_list_raised (items : list json) (e : exn) :
  fold_left
    (fun acc x =>
       counts <- acc ;;
       if Counter.hashable x then ret (Counter.add x counts) else raise TypeError)
    items (inl e)
  = inl e.
Proof. induction items as [|x items IH]; simpl; trivial. Qed.

Lemma of_list_unhashable (items : list json) :
  Exists (fun x => Counter.hashable x = false) items ->
  Counter.of_list items = inl TypeError.
Proof.
  unfold Counter.of_list. intros H. generalize (@nil (json * nat)).
  induction H as [x items Hx | x items Hex IH]; intros counts; simpl.
  - rewrite Hx. simpl. apply of_list_raised.
  - destruct (Counter.hashable x); simpl; [apply IH | apply of_list_raised].
Qed.

Lemma keys_add (x : json) (counts : list (json * nat)) :
  map fst (Counter.add x counts)
  = if existsb (fun k => Counter.eqb k x) (map fst counts)
    then map fst counts
    else (map fst counts ++ [x])%list.
Proof.
  induction counts as [|[k n] rest IH]; simpl; trivial.
  destruct (Counter.eqb k x); simpl; trivial.
  rewrite IH. now destruct (existsb _ _).
Qed.

Lemma order_more_seen (seen keys : list json) (x : json) :
  first_seen_order seen keys -> first_seen_order (seen ++ [x]) keys.
Proof.
  induction keys as [|k rest IH]; simpl; trivial.
  intros ((pre & post & -> & Hpre) & Hrest). split; [|now apply IH].
  exists pre, (post ++ [x])%list. split; trivial.
  now rewrite <- app_assoc.
Qed.

Lemma order_new_key (seen keys : list json) (x : json) :
  (forall z, In z seen -> Counter.eqb x z = false) ->
  first_seen_order seen keys -> first_seen_order (seen ++ [x]) (keys ++ [x]).
Proof.
  intros Hnew. induction keys as [|k rest IH]; simpl.
  - intros _. split; trivial.
    exists seen, []. split; trivial.
    intros z Hz. split; [now apply Hnew | intros k2 []].
  - intros ((pre & post & -> & Hpre) & Hrest). split; [|now apply IH].
    exists pre, (post ++ [x])%list. split; [now rewrite <- app_assoc|].
    intros z Hz. destruct (Hpre z Hz) as (Hk & Hk2). split; trivial.
    intros k2 Hin. apply in_app_or in Hin as [Hin | [<- | []]]; auto.
    apply Hnew, in_or_app. now left.
Qed.

Lemma count_for_pos (y : json) (counts : list (json * nat)) :
  count_for y counts <> 0%nat ->
  exists k n, In (k, n) counts /\ Counter.eqb k y = true.
Proof.
  induction counts as [|[k n] rest IH]; simpl; [congruence|].
  destruct (Counter.eqb k y) eqn:E.
  - intros _. exists k, n. auto.
  - intros H. destruct (IH H) as (k' & n' & Hin & Hk). exists k', n'. auto.
Qed.

Lemma occurrences_self (y : json) (names : list json) :
  In y names -> Counter.eqb y y = true -> occurrences y names <> 0%nat.
Proof.
  unfold occurrences. intros Hin Hrefl.
  assert (H : In y (filter (Counter.eqb y) names)) by now apply filter_In.
  destruct (filter (Counter.eqb y) names); [contradiction | discriminate].
Qed.

Lemma fold_covers (names : list json) (y : json) :
  In y names -> Counter.eqb y y = true ->
  exists k n, In (k, n) (fold_left (fun c x => Counter.add x c) names [])
              /\ Counter.eqb k y = true.
Proof.
  intros Hin Hrefl. apply count_for_pos.
  rewrite count_for_fold. simpl. now apply occurrences_self.
Qed.

Lemma fold_order (names : list json) :
  Forall (fun x => Counter.hashable x = true) names ->
  first_seen_order names
    (map fst (fold_left (fun c x => Counter.add x c) names [])).
Proof.
  induction names as [|x seen IH] using rev_ind; intros Hall; simpl; trivial.
  apply Forall_app in Hall as (Hseen & Hx).
  inversion Hx as [|? ? Hhash _]; subst.
  rewrite fold_left_app. simpl. rewrite keys_add.
  destruct (existsb _ _) eqn:Ex.
  - now apply order_more_seen, IH.
  - apply order_new_key; [|now apply IH].
    intros z Hz. destruct (Counter.eqb x z) eqn:Exz; trivial.
    assert (Hzz : Counter.eqb z z = true).
    { apply eqb_trans with x; trivial. now rewrite eqb_sym. }
    destruct (fold_covers seen z Hz Hzz) as (k & n & Hin & Hk).
    assert (Hkx : Counter.eqb k x = true).
    { apply eqb_trans with z; trivial. now rewrite eqb_sym. }
    assert (Hex : existsb (fun k => Counter.eqb k x)
                    (map fst (fold_left (fun c x => Counter.add x c) seen []))
                  = true).
    { apply existsb_exists. exists k. split; trivial.
      now apply (in_map fst) in Hin. }
    congruence.
Qed.

Lemma occurrences_eqb (a b : json) (names : list json) :
  Counter.eqb a b = true -> occurrences a names = occurrences b names.
Proof.
  intros Hab. unfold occurrences. f_equal.
  apply filter_ext. intros z.
  destruct (Counter.eqb a z) eqn:Ea, (Counter.eqb b z) eqn:Eb; trivial.
  - assert (H : Counter.eqb b z = true).
    { apply eqb_trans with a; trivial. now rewrite eqb_sym. }
    congruence.
  - assert (H : Counter.eqb a z = true) by now apply eqb_trans with b.
    congruence.
Qed.

Lemma first_max_first_seen (seen : list json) (k : json) (n : nat) :
  forall counts,
    first_seen_order seen (map fst counts) ->
    Counter.most_common1 counts = Some (k, n) ->
    exists pre post,
      seen = (pre ++ k :: post)%list
      /\ forall z, In z pre ->
                   Counter.eqb k z = false
                   /\ forall k2 n2, In (k2, n2) counts -> n2 = n ->
                                    Counter.eqb k k2 = false ->
                                    Counter.eqb k2 z = false.
Proof.
  induction counts as [|[k0 n0] rest IH]; simpl; [discriminate|].
  intros ((pre & post & Hseen & Hpre) & Hrest).
  destruct (Counter.most_common1 rest) as [[k1 n1]|] eqn:Erest.
  - destruct (n0 <? n1)%nat eqn:Elt; intros [= <- <-].
    + apply Nat.ltb_lt in Elt.
      destruct (IH Hrest eq_refl) as (pre' & post' & Hseen' & Hpre').
      exists pre', post'. split; trivial.
      intros z Hz. destruct (Hpre' z Hz) as (Hk & Hties). split; trivial.
      intros k2 n2 [[= <- <-] | Hin] Hn Hne; [lia|]. now apply Hties with n2.
    + exists pre, post. split; trivial.
      intros z Hz. destruct (Hpre z Hz) as (Hk & Hlater). split; trivial.
      intros k2 n2 [[= <- <-] | Hin] Hn Hne.
      * exact Hk.
      * apply Hlater. now apply (in_map fst) in Hin.
  - intros [= <- <-]. exists pre, post. split; trivial.
    intros z Hz. destruct (Hpre z Hz) as (Hk & Hlater). split; trivial.
    intros k2 n2 [[= <- <-] | Hin] Hn Hne.
    + exact Hk.
    + apply Hlater. now apply (in_map fst) in Hin.
Qed.

(** X21.  Ties go to the name met first: the name returned as most watched
    occurs in the tally list before every name that is different from it
    and has as many entries. *)
Theorem ties_go_to_the_first_name (merged : list Merged.row) (a : analysis)
    (k : json) (n : nat)
    (Hret : aggregate merged = inr a)
    (Htop : most_watched_female_director (stats_of a) = Some (k, n)) :
  exists pre post,
    female_director_list (tally merged) = (pre ++ k :: post)%list
    /\ forall y,
         In y (female_director_list (tally merged)) ->
         occurrences y (female_director_list (tally merged)) = n ->
         forall z, In z pre -> Counter.eqb y z = false.
Proof.
  apply aggregate_inv in Hret as (top & Hdata & ->). simpl in Htop. subst top.
  set (names := female_director_list (tally merged)) in *.
  apply top_director_data_inv in Hdata as (Hall & Htop).
  symmetry in Htop.
  destruct (fold_add_invariant names [] I) with (2 := Hall)
    as (Hd & Hr & _); [intros ? ? []|].
  destruct (first_max_first_seen names k n _ (fold_order names Hall) Htop)
    as (pre & post & Hnames & Hpre).
  exists pre, post. split; trivial.
  intros y Hy Hn z Hz. destruct (Hpre z Hz) as (Hkz & Hties).
  destruct (Counter.eqb y z) eqn:Eyz; trivial.
  assert (Hyy : Counter.eqb y y = true).
  { apply eqb_refl. rewrite Forall_forall in Hall. now apply Hall. }
  destruct (fold_covers names y Hy Hyy) as (ky & ny & Hin & Hky).
  assert (Hny : ny = n).
  { rewrite <- (count_for_in _ ky ny Hd Hin (Hr ky ny Hin)).
    rewrite count_for_fold. simpl. rewrite <- Hn. now apply occurrences_eqb. }
  assert (Hkyz : Counter.eqb ky z = true) by now apply eqb_trans with y.
  destruct (Counter.eqb k ky) eqn:Ekky.
  - assert (Counter.eqb k z = true) by now apply eqb_trans with ky.
    congruence.
  - pose proof (Hties ky ny Hin Hny Ekky). congruence.
Qed.

End MostWatched.

(** X19, an instance: Varda twice, Potter once. *)
Lemma most_watched_has_most_pairs_run :
  In (JStr "Agnes Varda") (female_director_list (tally three_rows))
  /\ 2%nat = occurrences (JStr "Agnes Varda") (female_director_list (tally three_rows))
  /\ forall y, In y (female_director_list (tally three_rows)) ->
               (occurrences y (female_director_list (tally three_rows)) <= 2)%nat.
Proof.
  refine (most_watched_has_most_pairs Qplus Qdiv three_rows _ (JStr "Agnes Varda") 2 _ _).
  - vm_compute. reflexivity.
  - reflexivity.
Defined.

(** X20, an instance: one film, directed by a man. *)
Lemma no_woman_no_output_run :
  (most_watched_female_director (stats_of others_only_analysis) = None <->
   best_rated_female_directed others_only_analysis = [])
  /\ (best_rated_female_directed others_only_analysis = [] <->
      forall row, In row others_only -> female_directed row = false)
  /\ (best_rated_female_directed others_only_analysis = [] ->
      female_avg (stats_of others_only_analysis) = 0%Q).
Proof.
  exact (no_woman_no_output Qplus Qdiv others_only others_only_analysis eq_refl).
Defined.

(** X21, an instance: Potter and Varda once each, Potter first. *)
Lemma ties_go_to_the_first_name_run :
  exists pre post,
    female_director_list (tally [orlando_merged; vagabond_merged])
    = (pre ++ JStr "Sally Potter" :: post)%list
    /\ forall y,
         In y (female_director_list (tally [orlando_merged; vagabond_merged])) ->
         occurrences y (female_director_list (tally [orlando_merged; vagabond_merged]))
         = 1%nat ->
         forall z, In z pre -> Counter.eqb y z = false.
Proof.
  refine (ties_go_to_the_first_name Qplus Qdiv [orlando_merged; vagabond_merged] _
            (JStr "Sally Potter") 1 _ _).
  - vm_compute. reflexivity.
  - reflexivity.
Defined.

Section Unhashable.

Variable int_of_str : string -> option Z.
Variable to_numeric_str : string -> option Q.
Variable float_add : Q -> Q -> Q.
Variable float_div : Q -> Q -> Q.

#[local] Abbreviation update_cache := (update_cache int_of_str).
#[local] Abbreviation load_and_clean := (load_and_clean to_numeric_str).
#[local] Abbreviation aggregate := (aggregate float_add float_div).
#[local] Abbreviation analyze_letterboxd :=
  (analyze_letterboxd int_of_str to_numeric_str float_add float_div).

(** X22.  A Female director whose name is a list or an object cannot be
    counted: [Counter] raises TypeError and the handler returns nothing, but
    only after the write, so the cache file already holds the rows of the
    run. *)
Theorem unhashable_name_fails_after_write (client : AsyncClient)
    (cache cache' : list Cache.row) (upload : list Upload.row)
    (Hwritten : snd (update_cache client cache (load_and_clean upload)) = inr cache')
    (Hname : Exists (fun nm => Counter.hashable nm = false)
               (female_director_list (tally (merge (load_and_clean upload) cache')))) :
  returned (analyze_letterboxd client cache upload) = inl TypeError
  /\ cache_file (analyze_letterboxd client cache upload) = cache'.
Proof.
  split.
  - unfold analyze_letterboxd.
    destruct (update_cache client cache (load_and_clean upload))
      as [tasks written] eqn:Eu.
    simpl in Hwritten. subst written.
    unfold aggregate, top_director_data.
    now rewrite (of_list_unhashable _ Hname).
  - rewrite analyze_cache_file. now rewrite Hwritten.
Qed.

End Unhashable.

(** X22, an instance: the name of Orlando's director comes as a list. *)
Lemma unhashable_name_fails_after_write_run :
  returned (analyze_letterboxd decimal decimal_rating Qplus Qdiv split_name []
              [rated "Orlando" 1992 (9 # 2)]) = inl TypeError
  /\ cache_file (analyze_letterboxd decimal decimal_rating Qplus Qdiv split_name []
                   [rated "Orlando" 1992 (9 # 2)]) = [split_name_entry].
Proof.
  apply (unhashable_name_fails_after_write decimal decimal_rating Qplus Qdiv split_name
           [] [split_name_entry] [rated "Orlando" 1992 (9 # 2)]).
  - reflexivity.
  - apply Exists_cons_hd. reflexivity.
Defined.

Section Rerun.

Variable int_of_str : string -> option Z.
Variable to_numeric_str : string -> option Q.
Variable float_add : Q -> Q -> Q.
Variable float_div : Q -> Q -> Q.

#[local] Abbreviation update_cache := (update_cache int_of_str).
#[local] Abbreviation load_and_clean := (load_and_clean to_numeric_str).
#[local] Abbreviation aggregate := (aggregate float_add float_div).
#[local] Abbreviation analyze_letterboxd :=
  (analyze_letterboxd int_of_str to_numeric_str float_add float_div).


End Rerun.


(** ** Rows dropped by the cleaning *)

Section Dropped.

Variable int_of_str : string -> option Z.
Variable to_numeric_str : string -> option Q.
Variable float_add : Q -> Q -> Q.
Variable float_div : Q -> Q -> Q.

#[local] Abbreviation new_row := (new_row int_of_str).
#[local] Abbreviation new_rows := (new_rows int_of_str).
#[local] Abbreviation update_cache := (update_cache int_of_str).
#[local] Abbreviation to_numeric := (to_numeric to_numeric_str).
#[local] Abbreviation clean := (clean to_numeric_str).
#[local] Abbreviation load_and_clean := (load_and_clean to_numeric_str).
#[local] Abbreviation provided_by := (provided_by to_numeric_str).
#[local] Abbreviation analyze_letterboxd :=
  (analyze_letterboxd int_of_str to_numeric_str float_add float_div).

Lemma cleaned_row_source (upload : list Upload.row) (u : User.row) :
  In u (load_and_clean upload) ->
  exists r, In r upload /\ clean r = Some u.
Proof.
  unfold load_and_clean. rewrite in_flat_map.
  intros (r & Hr & Hu). exists r. split; trivial.
  destruct (clean r) as [u'|]; [|contradiction].
  destruct Hu as [-> | []]. reflexivity.
Qed.

Lemma clean_provides (r : Upload.row) (u : User.row) :
  clean r = Some u ->
  Upload.Name r = Some (User.Name u)
  /\ Upload.Year r = User.Year u
  /\ to_numeric (Upload.Rating r) = Some (User.Rating u)
  /\ Upload.Letterboxd_URI r = User.Letterboxd_URI u.
Proof.
  unfold clean.
  destruct (Upload.Name r) as [n|]; [|discriminate].
  destruct (to_numeric (Upload.Rating r)) as [q|]; [|discriminate].
  intros [= <-]. simpl. auto.
Qed.

Lemma cleaned_from_kept (r : Upload.row) (before after : list Upload.row)
    (u : User.row) :
  Upload.Name r = None \/ to_numeric (Upload.Rating r) = None ->
  In u (load_and_clean (before ++ r :: after)) ->
  provided_by (before ++ after)
    (User.Name u) (User.Year u) (User.Rating u) (User.Letterboxd_URI u).
Proof.
  intros Hinvalid Hu.
  apply cleaned_row_source in Hu as (r' & Hr' & Hclean).
  assert (Hkept : In r' (before ++ after)).
  { apply in_app_or in Hr' as [H | [<- | H]].
    - apply in_or_app. now left.
    - rewrite (clean_invalid to_numeric_str r Hinvalid) in Hclean. discriminate.
    - apply in_or_app. now right. }
  apply clean_provides in Hclean as (Hn & Hy & Hq & Hu).
  exists r'. auto.
Qed.

Lemma new_rows_sources (rows : list User.row) :
  forall api_results rs c,
    new_rows rows api_results = inr rs -> In c rs ->
    exists u, In u rows
              /\ Cache.Name c = User.Name u
              /\ Cache.Year c = User.Year u
              /\ Cache.URI c = User.Letterboxd_URI u.
Proof.
  induction rows as [|row rows IH]; intros api_results rs c; simpl.
  - intros [= <-] [].
  - destruct api_results as [|[m_id ds] api_results]; [discriminate|].
    destruct (new_row row (m_id, ds)) as [e | r] eqn:Er; [discriminate|].
    destruct (new_rows rows api_results) as [e | rs'] eqn:Ers; [discriminate|].
    simpl. intros [= <-] [<- | Hc].
    + apply new_row_inv in Er as (Hn & Hy & Hu & _).
      exists row. auto.
    + destruct (IH api_results rs' c Ers Hc) as (u & Hu & H).
      exists u. auto.
Qed.


End Dropped.

